(** * Quick intake form: validation, payload construction and submit flow

    Shallow embedding of [src/app/intake/form/page.tsx]:
    the zod schema [QuickIntakeSchema], the helper [issueTypeToInsurance],
    the component state of [QuickIntakeFormPage], its [onSubmit] handler
    (with its [try]/[catch]/[finally] around the awaited [fetch]) and the
    rendering guards that decide which events the page can receive. *)

From Stdlib Require Import List NArith ZArith Bool Ascii String Lia.
Import ListNotations.

Set Implicit Arguments.

(** ** JavaScript strings

    A JavaScript string is a sequence of UTF-16 code units; [length],
    [trim] and [split] all work on code units. *)

Definition JsString : Type := list N.

(** Code units of an ASCII literal of the source. *)
Definition js (s : string) : JsString :=
  map N_of_ascii (list_ascii_of_string s).

Fixpoint str_eqb (a b : JsString) : bool :=
  match a, b with
  | [], [] => true
  | x :: a', y :: b' => N.eqb x y && str_eqb a' b'
  | _, _ => false
  end.

(** [Boolean(s)] for a string: only the empty string is falsy. *)
Definition Boolean (s : JsString) : bool :=
  match s with
  | [] => false
  | _ :: _ => true
  end.

(** WhiteSpace and LineTerminator code points of ECMAScript, the set that
    [String.prototype.trim] strips (all of them are single code units). *)
Definition is_js_whitespace (c : N) : bool :=
  ((c =? 9) || (c =? 10) || (c =? 11) || (c =? 12) || (c =? 13)
   || (c =? 32) || (c =? 160) || (c =? 5760)
   || ((8192 <=? c) && (c <=? 8202))
   || (c =? 8232) || (c =? 8233) || (c =? 8239) || (c =? 8287)
   || (c =? 12288) || (c =? 65279))%N.

Fixpoint trimStart (s : JsString) : JsString :=
  match s with
  | [] => []
  | c :: r => if is_js_whitespace c then trimStart r else s
  end.

Definition trimEnd (s : JsString) : JsString := rev (trimStart (rev s)).

Definition trim (s : JsString) : JsString := trimEnd (trimStart s).

(** The space character, the separator of [split(' ')] and [join(' ')]. *)
Definition SPACE : N := 32%N.

(** [s.split(sep)] for a one-code-unit separator: the pieces between the
    occurrences of [sep], empty pieces included; the empty string gives
    one empty piece. *)
Fixpoint split (sep : N) (s : JsString) : list JsString :=
  match s with
  | [] => [[]]
  | c :: r =>
      if (c =? sep)%N then [] :: split sep r
      else match split sep r with
           | [] => [[c]]
           | w :: ws => (c :: w) :: ws
           end
  end.

(** [l.join(sep)]. *)
Fixpoint join (sep : N) (l : list JsString) : JsString :=
  match l with
  | [] => []
  | [w] => w
  | w :: rest => w ++ sep :: join sep rest
  end.

(** [v || d] where [v] is a string or [undefined] ([None]). *)
Definition js_or (v : option JsString) (d : JsString) : JsString :=
  match v with
  | Some w => if Boolean w then w else d
  | None => d
  end.

(** [hay.includes(needle)]. *)
Fixpoint startsWith (needle hay : JsString) : bool :=
  match needle, hay with
  | [], _ => true
  | _ :: _, [] => false
  | x :: n', y :: h' => N.eqb x y && startsWith n' h'
  end.

Fixpoint includes (needle hay : JsString) : bool :=
  startsWith needle hay ||
  match hay with
  | [] => false
  | _ :: h' => includes needle h'
  end.

(** ** The schema *)

Module Schema.

(** The object handed to [QuickIntakeSchema.safeParse]. *)
Record Input : Type := {
  full_name : JsString;
  phone : JsString;
  issue_type : JsString;
  location : JsString;
  consent_privacy : bool;
  consent_communication : bool
}.

(** One zod issue, identified by the key it was raised for. *)
Inductive Issue : Type :=
| too_small (key : string) (minimum : nat)
| invalid_enum_value (key : string)
| invalid_literal (key : string).

Inductive SafeParseResult : Type :=
| ParseOk (data : Input)
| ParseError (issues : list Issue).

(** [z.string().min(n)] *)
Definition z_string_min (key : string) (n : nat) (v : JsString) : list Issue :=
  if Nat.leb n (List.length v) then [] else [too_small key n].

(** [z.enum(values)] *)
Definition z_enum (key : string) (values : list JsString) (v : JsString)
  : list Issue :=
  if existsb (str_eqb v) values then [] else [invalid_enum_value key].

(** [z.literal(true)] *)
Definition z_literal_true (key : string) (v : bool) : list Issue :=
  if v then [] else [invalid_literal key].

End Schema.

Definition issue_type_values : list JsString :=
  [js "work_injury"; js "mva"; js "sports"; js "chronic_pain"; js "other"].

Definition location_values : list JsString :=
  [js "edmonton-main-hub"; js "edmonton-west"].

(** [QuickIntakeSchema.safeParse]: every key is checked and the issues are
    collected; the parse succeeds when there is none. *)
Definition QuickIntakeSchema_issues (i : Schema.Input) : list Schema.Issue :=
  Schema.z_string_min "full_name" 3 (Schema.full_name i)
  ++ Schema.z_string_min "phone" 10 (Schema.phone i)
  ++ Schema.z_enum "issue_type" issue_type_values (Schema.issue_type i)
  ++ Schema.z_enum "location" location_values (Schema.location i)
  ++ Schema.z_literal_true "consent_privacy" (Schema.consent_privacy i)
  ++ Schema.z_literal_true "consent_communication"
       (Schema.consent_communication i).

Definition QuickIntakeSchema_safeParse (i : Schema.Input)
  : Schema.SafeParseResult :=
  match QuickIntakeSchema_issues i with
  | [] => Schema.ParseOk i
  | issues => Schema.ParseError issues
  end.

(** [parsed.success] *)
Definition parsed_success (r : Schema.SafeParseResult) : bool :=
  match r with
  | Schema.ParseOk _ => true
  | Schema.ParseError _ => false
  end.

(** ** [issueTypeToInsurance] *)

Definition issueTypeToInsurance (issueType : JsString) : JsString :=
  if str_eqb issueType (js "work_injury") then js "wcb"
  else if str_eqb issueType (js "mva") then js "mva"
  else js "private".

(** The five members of the [issue_type] enumeration, as a type. *)
Inductive IssueType : Type :=
| work_injury | mva | sports | chronic_pain | other.

Definition issue_type_name (t : IssueType) : JsString :=
  match t with
  | work_injury => js "work_injury"
  | mva => js "mva"
  | sports => js "sports"
  | chronic_pain => js "chronic_pain"
  | other => js "other"
  end.

(** ** The session identifier *)

(** Modelled from the spec: the tracking provider
    ([@/components/providers/tracking-provider], the module of
    [useTracking]) is not among the sources; the specification gives its
    [sessionId] as a text that may be absent. [None] is the absent
    ([null]) identifier. *)
Definition SessionId : Type := option JsString.

(** ** The request body *)

Module Payload.

Record PatientData : Type := {
  first_name : JsString;
  last_name : JsString;
  phone : JsString
}.

Record InjuryData : Type := { injury_type : JsString }.

Record InsuranceData : Type := { insurance_type : JsString }.

Record ConsentData : Type := {
  privacy_consent : bool;
  treatment_consent : bool;
  communication_consent : bool
}.

(** The object passed to [JSON.stringify]. [session_id] holds the
    value of [sessionId], a string or [null]; [medical_history] is an object
    literal, kept as the list of its key/value pairs. *)
Record Body : Type := {
  session_id : SessionId;
  patient_data : PatientData;
  injury_data : InjuryData;
  insurance_data : InsuranceData;
  medical_history : list (JsString * JsString);
  consent_data : ConsentData;
  status : JsString
}.

End Payload.

(** The arguments of the [fetch] call. *)
Record Request : Type := {
  url : JsString;
  method : JsString;
  headers : list (JsString * JsString);
  body : Payload.Body
}.

(** What the awaited [fetch] promise does: it is fulfilled with a response
    that has an HTTP status, or rejected (the request could not be
    completed). *)
Inductive JsError : Type :=
| Error (message : JsString)
| TypeError (message : JsString).

Record Response : Type := { http_status : Z }.

(** [res.ok]: the status is in the range 200-299. *)
Definition ok (res : Response) : bool :=
  ((200 <=? http_status res) && (http_status res <=? 299))%Z.

Inductive FetchOutcome : Type :=
| Fulfilled (res : Response)
| Rejected (reason : JsError).

(** ** Component state

    The nine [useState] cells of [QuickIntakeFormPage]. *)
Record State : Type := {
  fullName : JsString;
  phone : JsString;
  issueType : JsString;
  location : JsString;
  consentPrivacy : bool;
  consentCommunication : bool;
  isSubmitting : bool;
  success : bool;
  error : option JsString
}.

(** The initial values given to [useState]. *)
Definition initial_state : State := {|
  fullName := js "";
  phone := js "";
  issueType := js "work_injury";
  location := js "edmonton-main-hub";
  consentPrivacy := true;
  consentCommunication := true;
  isSubmitting := false;
  success := false;
  error := None
|}.

(** The state setters returned by [useState]. *)
Inductive Setter : Type :=
| setFullName (v : JsString)
| setPhone (v : JsString)
| setIssueType (v : JsString)
| setLocation (v : JsString)
| setConsentPrivacy (v : bool)
| setConsentCommunication (v : bool)
| setIsSubmitting (v : bool)
| setSuccess (v : bool)
| setError (v : option JsString).

Definition apply_setter (c : Setter) (s : State) : State :=
  match c with
  | setFullName v =>
      {| fullName := v; phone := phone s; issueType := issueType s;
         location := location s; consentPrivacy := consentPrivacy s;
         consentCommunication := consentCommunication s;
         isSubmitting := isSubmitting s; success := success s;
         error := error s |}
  | setPhone v =>
      {| fullName := fullName s; phone := v; issueType := issueType s;
         location := location s; consentPrivacy := consentPrivacy s;
         consentCommunication := consentCommunication s;
         isSubmitting := isSubmitting s; success := success s;
         error := error s |}
  | setIssueType v =>
      {| fullName := fullName s; phone := phone s; issueType := v;
         location := location s; consentPrivacy := consentPrivacy s;
         consentCommunication := consentCommunication s;
         isSubmitting := isSubmitting s; success := success s;
         error := error s |}
  | setLocation v =>
      {| fullName := fullName s; phone := phone s; issueType := issueType s;
         location := v; consentPrivacy := consentPrivacy s;
         consentCommunication := consentCommunication s;
         isSubmitting := isSubmitting s; success := success s;
         error := error s |}
  | setConsentPrivacy v =>
      {| fullName := fullName s; phone := phone s; issueType := issueType s;
         location := location s; consentPrivacy := v;
         consentCommunication := consentCommunication s;
         isSubmitting := isSubmitting s; success := success s;
         error := error s |}
  | setConsentCommunication v =>
      {| fullName := fullName s; phone := phone s; issueType := issueType s;
         location := location s; consentPrivacy := consentPrivacy s;
         consentCommunication := v;
         isSubmitting := isSubmitting s; success := success s;
         error := error s |}
  | setIsSubmitting v =>
      {| fullName := fullName s; phone := phone s; issueType := issueType s;
         location := location s; consentPrivacy := consentPrivacy s;
         consentCommunication := consentCommunication s;
         isSubmitting := v; success := success s;
         error := error s |}
  | setSuccess v =>
      {| fullName := fullName s; phone := phone s; issueType := issueType s;
         location := location s; consentPrivacy := consentPrivacy s;
         consentCommunication := consentCommunication s;
         isSubmitting := isSubmitting s; success := v;
         error := error s |}
  | setError v =>
      {| fullName := fullName s; phone := phone s; issueType := issueType s;
         location := location s; consentPrivacy := consentPrivacy s;
         consentCommunication := consentCommunication s;
         isSubmitting := isSubmitting s; success := success s;
         error := v |}
  end.

(** ** Handler code

    An [async] handler is a tree of setter calls that either returns,
    throws, or awaits a [fetch] and goes on with what the promise did. *)
Inductive Prog : Type :=
| Return
| Throw (e : JsError)
| Call (c : Setter) (k : Prog)
| AwaitFetch (req : Request) (k : FetchOutcome -> Prog).

(** Sequencing: [p] and then, when [p] returns, [q]. *)
Fixpoint seq (p q : Prog) : Prog :=
  match p with
  | Return => q
  | Throw e => Throw e
  | Call c k => Call c (seq k q)
  | AwaitFetch req k => AwaitFetch req (fun o => seq (k o) q)
  end.

(** [try { p } catch (e) { handler e }] *)
Fixpoint try_catch (p : Prog) (handler : JsError -> Prog) : Prog :=
  match p with
  | Return => Return
  | Throw e => handler e
  | Call c k => Call c (try_catch k handler)
  | AwaitFetch req k => AwaitFetch req (fun o => try_catch (k o) handler)
  end.

(** [try { p } finally { fin }]: [fin] runs on both exits, and an exception
    of [p] is thrown again after it. *)
Fixpoint try_finally (p fin : Prog) : Prog :=
  match p with
  | Return => fin
  | Throw e => seq fin (Throw e)
  | Call c k => Call c (try_finally k fin)
  | AwaitFetch req k => AwaitFetch req (fun o => try_finally (k o) fin)
  end.

(** [const res = await fetch(...)]: a rejected promise throws its reason at
    the [await]. *)
Definition await_fetch (req : Request) (k : Response -> Prog) : Prog :=
  AwaitFetch req (fun o =>
    match o with
    | Fulfilled res => k res
    | Rejected reason => Throw reason
    end).

Declare Scope prog_scope.
Delimit Scope prog_scope with prog.
Notation "c ;; k" := (Call c k%prog)
  (at level 61, right associativity) : prog_scope.

(** [try { p } catch (e) { handler e } finally { fin }] *)
Definition try_catch_finally (p : Prog) (handler : JsError -> Prog)
  (fin : Prog) : Prog :=
  try_finally (try_catch p handler) fin.

(** ** [onSubmit] *)

Definition msg_required : JsString :=
  js "Please complete all required fields.".

Definition msg_missing_session : JsString :=
  js "Missing session. Please refresh and try again.".

Definition msg_failed : JsString :=
  js "Something went wrong submitting your intake. Please call (780) 250-8188.".

(** The clinic's phone number, as it is written in the page. *)
Definition fallback_phone : JsString := js "(780) 250-8188".

(** [!sessionId]: true for [null] and for the empty string. *)
Definition js_not (sessionId : SessionId) : bool :=
  match sessionId with
  | None => true
  | Some v => negb (Boolean v)
  end.

(** The argument of [safeParse] in [onSubmit]. *)
Definition schema_input (s : State) : Schema.Input := {|
  Schema.full_name := trim (fullName s);
  Schema.phone := trim (phone s);
  Schema.issue_type := issueType s;
  Schema.location := location s;
  Schema.consent_privacy := consentPrivacy s;
  Schema.consent_communication := consentCommunication s
|}.

(** [names], [firstName] and [lastName] of [onSubmit]. *)
Definition names_of (fullName : JsString) : list JsString :=
  filter Boolean (split SPACE (trim fullName)).

Definition firstName_of (fullName : JsString) : JsString :=
  js_or (nth_error (names_of fullName) 0) (js "").

Definition lastName_of (fullName : JsString) : JsString :=
  js_or (Some (join SPACE (skipn 1 (names_of fullName)))) (js "").

(** The object literal that [onSubmit] stringifies into the request body.
    [s] holds the values the handler closed over. *)
Definition build_body (s : State) (sessionId : SessionId)
  : Payload.Body := {|
  Payload.session_id := sessionId;
  Payload.patient_data := {|
    Payload.first_name := firstName_of (fullName s);
    Payload.last_name := lastName_of (fullName s);
    Payload.phone := phone s
  |};
  Payload.injury_data := {| Payload.injury_type := issueType s |};
  Payload.insurance_data :=
    {| Payload.insurance_type := issueTypeToInsurance (issueType s) |};
  Payload.medical_history := [];
  Payload.consent_data := {|
    Payload.privacy_consent := true;
    Payload.treatment_consent := false;
    Payload.communication_consent := true
  |};
  Payload.status := js "submitted"
|}.

Definition build_request (s : State) (sessionId : SessionId)
  : Request := {|
  url := js "/api/intake/save";
  method := js "POST";
  headers := [(js "Content-Type", js "application/json")];
  body := build_body s sessionId
|}.

(** [onSubmit] as created by the render that showed state [s] with the
    session identifier [sessionId]. *)
Definition onSubmit (s : State) (sessionId : SessionId) : Prog :=
  (setError None ;;
   let parsed := QuickIntakeSchema_safeParse (schema_input s) in
   if negb (parsed_success parsed) then
     setError (Some msg_required) ;; Return
   else if js_not sessionId then
     setError (Some msg_missing_session) ;; Return
   else
     setIsSubmitting true ;;
     try_catch_finally
       (await_fetch
          (build_request s sessionId)
          (fun res =>
             if negb (ok res) then Throw (Error (js "Failed to submit intake"))
             else setSuccess true ;; Return))
       (fun e => setError (Some msg_failed) ;; Return)
       (setIsSubmitting false ;; Return))%prog.

(** ** Running a handler

    A handler runs until it returns, throws, or reaches an [await]; at an
    [await] the request is out and the rest of the handler waits for the
    promise. *)
Inductive Pause : Type :=
| Finished
| Uncaught (e : JsError)
| Pending (req : Request) (k : FetchOutcome -> Prog).

Fixpoint run (p : Prog) (s : State) : State * Pause :=
  match p with
  | Return => (s, Finished)
  | Throw e => (s, Uncaught e)
  | Call c k => run k (apply_setter c s)
  | AwaitFetch req k => (s, Pending req k)
  end.

(** The request a run has sent, if it reached the [fetch]. *)
Definition request_of (r : State * Pause) : option Request :=
  match snd r with
  | Pending req _ => Some req
  | _ => None
  end.

(** The six draft fields of a state. *)
Definition draft (s : State)
  : JsString * JsString * JsString * JsString * bool * bool :=
  (fullName s, phone s, issueType s, location s,
   consentPrivacy s, consentCommunication s).

(** ** The page

    What the component renders: the confirmation card when [success] is
    set, otherwise the form with its error banner and a submit button that
    is disabled while [isSubmitting]. *)
Inductive View : Type :=
| SuccessCard
| Form (banner : option JsString) (submitDisabled : bool).

Definition render (s : State) : View :=
  if success s then SuccessCard else Form (error s) (isSubmitting s).

(** The view states of the submit flow, read off the rendered output. *)
Inductive ViewState : Type :=
| Editing | Submitting | Success | EditingWithError.

Definition view_state (s : State) : ViewState :=
  match render s with
  | SuccessCard => Success
  | Form _ true => Submitting
  | Form (Some _) false => EditingWithError
  | Form None false => Editing
  end.

(** The two options of the location [select]. *)
Inductive Location : Type :=
| edmonton_main_hub | edmonton_west.

Definition location_name (l : Location) : JsString :=
  match l with
  | edmonton_main_hub => js "edmonton-main-hub"
  | edmonton_west => js "edmonton-west"
  end.

(** A page instance: the component state, the requests that are out with
    the handler code waiting on each, and the errors no handler caught. *)
Record Page : Type := {
  state : State;
  inflight : list (Request * (FetchOutcome -> Prog));
  unhandled : list JsError
}.

Definition initial_page : Page :=
  {| state := initial_state; inflight := []; unhandled := [] |}.

(** What can happen to a page: the user acts on an element that is
    rendered, or one of the outstanding requests settles. [ClickSubmit]
    carries the session identifier [useTracking] gave to that render. *)
Inductive Event : Type :=
| InputFullName (v : JsString)
| InputPhone (v : JsString)
| SelectIssueType (v : IssueType)
| SelectLocation (v : Location)
| CheckConsentPrivacy (v : bool)
| CheckConsentCommunication (v : bool)
| ClickSubmit (sessionId : SessionId)
| FetchSettled (i : nat) (o : FetchOutcome).

(** Run handler code on the page up to its end or its next [await]. *)
Definition start (p : Prog) (pg : Page) : Page :=
  match run p (state pg) with
  | (s', Finished) =>
      {| state := s'; inflight := inflight pg; unhandled := unhandled pg |}
  | (s', Uncaught e) =>
      {| state := s'; inflight := inflight pg;
         unhandled := unhandled pg ++ [e] |}
  | (s', Pending req k) =>
      {| state := s'; inflight := inflight pg ++ [(req, k)];
         unhandled := unhandled pg |}
  end.

Definition remove_nth {A : Type} (i : nat) (l : list A) : list A :=
  firstn i l ++ skipn (S i) l.

(** The [onChange] handlers exist only while the form is rendered. *)
Definition on_form (pg : Page) (c : Setter) : Page :=
  match render (state pg) with
  | SuccessCard => pg
  | Form _ _ => start (Call c Return) pg
  end.

Definition step (pg : Page) (ev : Event) : Page :=
  match ev with
  | InputFullName v => on_form pg (setFullName v)
  | InputPhone v => on_form pg (setPhone v)
  | SelectIssueType v => on_form pg (setIssueType (issue_type_name v))
  | SelectLocation v => on_form pg (setLocation (location_name v))
  | CheckConsentPrivacy v => on_form pg (setConsentPrivacy v)
  | CheckConsentCommunication v => on_form pg (setConsentCommunication v)
  | ClickSubmit sessionId =>
      match render (state pg) with
      | Form _ false => start (onSubmit (state pg) sessionId) pg
      | _ => pg
      end
  | FetchSettled i o =>
      match nth_error (inflight pg) i with
      | Some (_, k) =>
          start (k o)
            {| state := state pg; inflight := remove_nth i (inflight pg);
               unhandled := unhandled pg |}
      | None => pg
      end
  end.

Definition run_events (pg : Page) (evs : list Event) : Page :=
  fold_left step evs pg.

(** ** Reference definitions for the name splitter

    [tokens sep s]: the maximal runs of code units of [s] that are not
    separators, in order: what splitting [s] on separators and keeping the
    non-empty pieces means. *)
Fixpoint tokens_from (sep : N -> bool) (cur : JsString) (s : JsString)
  : list JsString :=
  match s with
  | [] => match cur with [] => [] | _ => [rev cur] end
  | c :: r =>
      if sep c then
        match cur with
        | [] => tokens_from sep [] r
        | _ => rev cur :: tokens_from sep [] r
        end
      else tokens_from sep (c :: cur) r
  end.

Definition tokens (sep : N -> bool) (s : JsString) : list JsString :=
  tokens_from sep [] s.

(** First token, and the other tokens joined with single spaces. *)
Definition first_and_rest (toks : list JsString) : JsString * JsString :=
  (hd [] toks, join SPACE (tl toks)).

(** The splitter as the specification words it: split on whitespace. *)
Definition split_on_whitespace (fullName : JsString) : JsString * JsString :=
  first_and_rest (tokens is_js_whitespace fullName).

(** The splitter of [onSubmit]. *)
Definition splitName (fullName : JsString) : JsString * JsString :=
  (firstName_of fullName, lastName_of fullName).

(** A state with the given draft and nothing else set. *)
Definition draft_state (fullName phone issueType location : JsString)
  (consentPrivacy consentCommunication : bool) : State := {|
  fullName := fullName; phone := phone; issueType := issueType;
  location := location; consentPrivacy := consentPrivacy;
  consentCommunication := consentCommunication;
  isSubmitting := false; success := false; error := None
|}.

Definition TAB : N := 9%N.


(** ** Auxiliary definitions for the statements *)

(** The draft constraints, as the schema states them. *)
Definition draft_constraints (s : State) : Prop :=
  3 <= List.length (trim (fullName s)) /\
  10 <= List.length (trim (phone s)) /\
  In (issueType s) issue_type_values /\
  In (location s) location_values /\
  consentPrivacy s = true /\
  consentCommunication s = true.

(** [parsed.success] for the draft held in state [s]. *)
Definition validate (s : State) : bool :=
  parsed_success (QuickIntakeSchema_safeParse (schema_input s)).

(** The handler code that waits on the [fetch] of [onSubmit]. *)
Definition onSubmit_after_await (o : FetchOutcome) : Prog :=
  try_finally
    (try_catch
       match o with
       | Fulfilled res =>
           if negb (ok res) then Throw (Error (js "Failed to submit intake"))
           else Call (setSuccess true) Return
       | Rejected reason => Throw reason
       end
       (fun _ => Call (setError (Some msg_failed)) Return))
    (Call (setIsSubmitting false) Return).

(** The request completed with an HTTP success status. *)
Definition http_success (o : FetchOutcome) : bool :=
  match o with
  | Fulfilled res => ok res
  | Rejected _ => false
  end.

(** The draft of the specification's example, with blanks around the
    phone number. *)
Definition padded_phone_state : State :=
  draft_state (js "John Smith") (js " 7802508188 ") (js "work_injury")
    (js "edmonton-main-hub") true true.

(** The draft of the specification's example. *)
Definition example_state : State :=
  draft_state (js "John Smith") (js "7802508188") (js "work_injury")
    (js "edmonton-main-hub") true true.

(** A name with a tab between its first two words. *)
Definition tabbed_name : JsString := js "Mary" ++ TAB :: js "Jane Watson".

(** The settled-request invariant of a page: nothing was left uncaught,
    and either no request is out and the indicator is off, or exactly one
    request of [onSubmit] is out, the indicator is on and the form is
    still shown. *)
Definition page_inv (pg : Page) : Prop :=
  unhandled pg = [] /\
  ((inflight pg = [] /\ isSubmitting (state pg) = false) \/
   (exists req, inflight pg = [(req, onSubmit_after_await)] /\
                isSubmitting (state pg) = true /\
                success (state pg) = false)).

(** Setters of the draft fields leave the three flow cells alone. *)
Definition field_setter (c : Setter) : bool :=
  match c with
  | setIsSubmitting _ | setSuccess _ | setError _ => false
  | _ => true
  end.

(** [s] without its space characters. *)
Definition remove_spaces (s : JsString) : JsString :=
  filter (fun c => negb (c =? SPACE)%N) s.

(** [s] holds nothing but whitespace (the empty string included). *)
Definition all_whitespace (s : JsString) : bool :=
  forallb is_js_whitespace s.

(** The insurance type that goes with each member of the enumeration. *)
Definition insurance_of (t : IssueType) : JsString :=
  match t with
  | work_injury => js "wcb"
  | mva => js "mva"
  | sports | chronic_pain | other => js "private"
  end.

(** The selects only offer members of the two enumerations. *)
Definition selects_inv (s : State) : Prop :=
  In (issueType s) issue_type_values /\ In (location s) location_values.

(** No error is kept while a request is out or once the intake went
    through. *)
Definition banner_inv (s : State) : Prop :=
  (isSubmitting s = true -> error s = None) /\
  (success s = true -> error s = None).

(** What holds of every page reached from the initial one. *)
Definition reachable_inv (pg : Page) : Prop :=
  page_inv pg /\ selects_inv (state pg) /\ banner_inv (state pg).

(** The page after a click that sends the request for state [s]. *)
Definition page_submitting (pg : Page) (sessionId : SessionId) : Page := {|
  state := apply_setter (setIsSubmitting true)
             (apply_setter (setError None) (state pg));
  inflight := inflight pg
              ++ [(build_request (state pg) sessionId, onSubmit_after_await)];
  unhandled := unhandled pg
|}.

(** The page after its only outstanding request has settled with [o]. *)
Definition page_settled (pg : Page) (o : FetchOutcome) : Page := {|
  state := if http_success o
           then apply_setter (setIsSubmitting false)
                  (apply_setter (setSuccess true) (state pg))
           else apply_setter (setIsSubmitting false)
                  (apply_setter (setError (Some msg_failed)) (state pg));
  inflight := [];
  unhandled := unhandled pg
|}.

(** * Properties *)

(** ** Strings and the schema *)

Lemma str_eqb_eq (a b : JsString) : str_eqb a b = true <-> a = b.
Proof.
  revert b; induction a as [|x a IH]; intros [|y b]; simpl;
    try (split; [discriminate | discriminate]); try tauto.
  rewrite andb_true_iff, N.eqb_eq, IH.
  split; [intros [-> ->]; reflexivity | intros [= -> ->]; auto].
Qed.

Lemma existsb_str_eqb (v : JsString) (values : list JsString) :
  existsb (str_eqb v) values = true <-> In v values.
Proof.
  rewrite existsb_exists; split.
  - intros (w & Hin & Heq). apply str_eqb_eq in Heq. now subst.
  - intros Hin. exists v. split; [assumption | now apply str_eqb_eq].
Qed.

Lemma z_string_min_nil key n v :
  Schema.z_string_min key n v = [] <-> n <= List.length v.
Proof.
  unfold Schema.z_string_min.
  destruct (Nat.leb n (List.length v)) eqn:E.
  - apply Nat.leb_le in E. tauto.
  - apply Nat.leb_gt in E. split; [discriminate | lia].
Qed.

Lemma z_enum_nil key values v :
  Schema.z_enum key values v = [] <-> In v values.
Proof.
  unfold Schema.z_enum. rewrite <- existsb_str_eqb.
  destruct (existsb (str_eqb v) values); split;
    auto; discriminate.
Qed.

Lemma z_literal_true_nil key v :
  Schema.z_literal_true key v = [] <-> v = true.
Proof.
  destruct v; simpl; split; auto; discriminate.
Qed.

Lemma safeParse_success_iff (i : Schema.Input) :
  parsed_success (QuickIntakeSchema_safeParse i) = true <->
  QuickIntakeSchema_issues i = [].
Proof.
  unfold QuickIntakeSchema_safeParse.
  destruct (QuickIntakeSchema_issues i); simpl; split;
    auto; discriminate.
Qed.

Lemma app_nil_iff {A : Type} (l1 l2 : list A) :
  l1 ++ l2 = [] <-> l1 = [] /\ l2 = [].
Proof.
  split.
  - apply app_eq_nil.
  - intros [-> ->]. reflexivity.
Qed.

Lemma validate_iff (s : State) :
  validate s = true <-> draft_constraints s.
Proof.
  unfold validate, draft_constraints.
  rewrite safeParse_success_iff. unfold QuickIntakeSchema_issues.
  rewrite !app_nil_iff, !z_string_min_nil, !z_enum_nil, !z_literal_true_nil.
  reflexivity.
Qed.

(** ** Runs of [onSubmit] *)

Lemma run_onSubmit_invalid s sessionId :
  validate s = false ->
  run (onSubmit s sessionId) s
  = (apply_setter (setError (Some msg_required)) s, Finished).
Proof.
  unfold validate, onSubmit. intros H. cbn [run]. rewrite H. reflexivity.
Qed.

Lemma run_onSubmit_no_session s sessionId :
  validate s = true -> js_not sessionId = true ->
  run (onSubmit s sessionId) s
  = (apply_setter (setError (Some msg_missing_session)) s, Finished).
Proof.
  unfold validate, onSubmit. intros H1 H2. cbn [run]. rewrite H1, H2.
  reflexivity.
Qed.

Lemma run_onSubmit_fetch s sessionId :
  validate s = true -> js_not sessionId = false ->
  run (onSubmit s sessionId) s
  = (apply_setter (setIsSubmitting true) (apply_setter (setError None) s),
     Pending (build_request s sessionId) onSubmit_after_await).
Proof.
  unfold validate, onSubmit. intros H1 H2. cbn [run]. rewrite H1, H2.
  reflexivity.
Qed.

Lemma run_onSubmit_cases s sessionId :
  (validate s = false /\
   run (onSubmit s sessionId) s
   = (apply_setter (setError (Some msg_required)) s, Finished)) \/
  (validate s = true /\ js_not sessionId = true /\
   run (onSubmit s sessionId) s
   = (apply_setter (setError (Some msg_missing_session)) s, Finished)) \/
  (validate s = true /\ js_not sessionId = false /\
   run (onSubmit s sessionId) s
   = (apply_setter (setIsSubmitting true) (apply_setter (setError None) s),
      Pending (build_request s sessionId) onSubmit_after_await)).
Proof.
  destruct (validate s) eqn:Hv.
  - destruct (js_not sessionId) eqn:Hs.
    + right; left. auto using run_onSubmit_no_session.
    + right; right. auto using run_onSubmit_fetch.
  - left. auto using run_onSubmit_invalid.
Qed.

Lemma run_after_await o s :
  run (onSubmit_after_await o) s
  = (if http_success o
     then apply_setter (setIsSubmitting false)
            (apply_setter (setSuccess true) s)
     else apply_setter (setIsSubmitting false)
            (apply_setter (setError (Some msg_failed)) s),
     Finished).
Proof.
  unfold onSubmit_after_await.
  destruct o as [res | reason]; cbn [http_success].
  - destruct (ok res); reflexivity.
  - reflexivity.
Qed.

(** C1: [validate] succeeds exactly when the trimmed [fullName] has at
    least 3 code units, the trimmed [phone] at least 10, [issueType] and
    [location] are members of their enumerations and both consents are
    [true]; when it fails, [onSubmit] ends with the one generic message
    "Please complete all required fields." as the error, whatever
    constraint was unmet, and no request is sent. *)
Theorem C1_validate_iff_constraints :
  forall (s : State) (sessionId : SessionId),
    (validate s = true <-> draft_constraints s) /\
    (~ draft_constraints s ->
     validate s = false /\
     run (onSubmit s sessionId) s
     = (apply_setter (setError (Some msg_required)) s, Finished) /\
     request_of (run (onSubmit s sessionId) s) = None).
Proof.
  intros s sessionId. split; [apply validate_iff|].
  intros Hc.
  assert (Hv : validate s = false).
  { destruct (validate s) eqn:E; [|reflexivity].
    exfalso. now apply Hc, validate_iff. }
  split; [assumption|].
  rewrite (run_onSubmit_invalid s sessionId Hv). split; reflexivity.
Qed.

(** The empty draft the form starts with: both length constraints are
    unmet. *)
Lemma C1_witness :
  ~ draft_constraints initial_state /\
  validate initial_state = false /\
  run (onSubmit initial_state (Some (js "abc123"))) initial_state
  = (apply_setter (setError (Some msg_required)) initial_state, Finished) /\
  request_of (run (onSubmit initial_state (Some (js "abc123"))) initial_state)
  = None.
Proof.
  assert (H : ~ draft_constraints initial_state).
  { intros (H & _). vm_compute in H. lia. }
  split; [exact H|].
  exact (proj2 (C1_validate_iff_constraints initial_state (Some (js "abc123"))) H).
Defined.

(** C4: [issueTypeToInsurance] is defined on each of the five members of
    the [issue_type] enumeration: [work_injury] gives "wcb", [mva] gives
    "mva", and [sports], [chronic_pain] and [other] give "private"; the
    five names are exactly the members the schema lists. *)
Theorem C4_issueTypeToInsurance_table :
  (forall t : IssueType,
     issueTypeToInsurance (issue_type_name t)
     = match t with
       | work_injury => js "wcb"
       | mva => js "mva"
       | sports | chronic_pain | other => js "private"
       end) /\
  issue_type_values
  = map issue_type_name [work_injury; mva; sports; chronic_pain; other].
Proof.
  split; [intros []; reflexivity | reflexivity].
Qed.

(** ** The request body *)

Lemma request_of_onSubmit s sessionId req :
  request_of (run (onSubmit s sessionId) s) = Some req ->
  validate s = true /\ js_not sessionId = false /\
  req = build_request s sessionId.
Proof.
  destruct (run_onSubmit_cases s sessionId)
    as [(Hv & ->) | [(Hv & Hs & ->) | (Hv & Hs & ->)]];
    cbn [request_of snd]; try discriminate.
  intros [= <-]. auto.
Qed.

(** The body carries the [phone] cell as it is, and the names computed
    from the trimmed [fullName]. *)
Lemma patient_data_of_request s sessionId req :
  request_of (run (onSubmit s sessionId) s) = Some req ->
  Payload.patient_data (body req)
  = {| Payload.first_name := firstName_of (fullName s);
       Payload.last_name := lastName_of (fullName s);
       Payload.phone := phone s |}.
Proof.
  intros H. apply request_of_onSubmit in H as (_ & _ & ->). reflexivity.
Qed.

(** C2: the draft "John Smith" / " 7802508188 " (a blank on each side of
    the number) passes validation, and the request that [onSubmit] sends
    for it has [first_name] "John" and [last_name] "Smith", taken from the
    trimmed name, but [patient_data.phone] is " 7802508188 ", the cell as
    typed, not the trimmed "7802508188" that was validated. *)
Theorem C2_phone_sent_untrimmed :
  validate padded_phone_state = true /\
  option_map (fun req => Payload.patient_data (body req))
    (request_of
       (run (onSubmit padded_phone_state (Some (js "abc123")))
          padded_phone_state))
  = Some {| Payload.first_name := js "John";
            Payload.last_name := js "Smith";
            Payload.phone := js " 7802508188 " |} /\
  trim (phone padded_phone_state) = js "7802508188" /\
  js " 7802508188 " <> trim (phone padded_phone_state).
Proof.
  split; [reflexivity|]. split; [reflexivity|]. split; [reflexivity|].
  vm_compute. discriminate.
Qed.

(** C3: whenever [onSubmit] reaches the [fetch], the body it sends has
    [consent_data] equal to privacy [true], treatment [false],
    communication [true], an empty [medical_history] and [status]
    "submitted", whatever the draft holds. *)
Theorem C3_constant_parts_of_body :
  forall (s : State) (sessionId : SessionId) (req : Request),
    request_of (run (onSubmit s sessionId) s) = Some req ->
    Payload.consent_data (body req)
    = {| Payload.privacy_consent := true;
         Payload.treatment_consent := false;
         Payload.communication_consent := true |} /\
    Payload.medical_history (body req) = [] /\
    Payload.status (body req) = js "submitted".
Proof.
  intros s sessionId req H.
  apply request_of_onSubmit in H as (_ & _ & ->).
  repeat split.
Qed.

Lemma C3_witness :
  request_of
    (run (onSubmit example_state (Some (js "abc123"))) example_state)
  = Some (build_request example_state (Some (js "abc123"))) /\
  Payload.consent_data
    (body (build_request example_state (Some (js "abc123"))))
  = {| Payload.privacy_consent := true;
       Payload.treatment_consent := false;
       Payload.communication_consent := true |} /\
  Payload.medical_history
    (body (build_request example_state (Some (js "abc123")))) = [] /\
  Payload.status (body (build_request example_state (Some (js "abc123"))))
  = js "submitted".
Proof.
  split; [reflexivity|].
  apply (C3_constant_parts_of_body example_state (Some (js "abc123"))).
  reflexivity.
Defined.

(** ** The name splitter *)

Lemma Boolean_app_rev cur w :
  Boolean (rev cur ++ w) = Boolean cur || Boolean w.
Proof.
  destruct cur as [|c cur]; [reflexivity|].
  simpl. destruct (rev cur); reflexivity.
Qed.

Lemma split_not_nil sep s : split sep s <> [].
Proof.
  destruct s as [|c r]; simpl; [discriminate|].
  destruct (c =? sep)%N; [discriminate|].
  destruct (split sep r); discriminate.
Qed.

Lemma tokens_from_split sep cur s :
  tokens_from (fun c => (c =? sep)%N) cur s
  = filter Boolean
      match split sep s with
      | [] => []
      | w :: ws => (rev cur ++ w) :: ws
      end.
Proof.
  revert cur; induction s as [|c r IH]; intros cur.
  - cbn [tokens_from split filter]. rewrite Boolean_app_rev, orb_false_r.
    rewrite app_nil_r. destruct cur; reflexivity.
  - cbn [tokens_from split]. destruct (c =? sep)%N eqn:E.
    + cbn [filter]. rewrite Boolean_app_rev, orb_false_r, app_nil_r.
      rewrite (IH []).
      assert (Hs : filter Boolean
                     match split sep r with
                     | [] => []
                     | w :: ws => (rev [] ++ w) :: ws
                     end = filter Boolean (split sep r)).
      { destruct (split sep r); reflexivity. }
      rewrite Hs. destruct cur; reflexivity.
    + rewrite IH. pose proof (split_not_nil sep r) as Hne.
      destruct (split sep r) as [|w ws]; [contradiction|].
      cbn [rev]. rewrite <- app_assoc. reflexivity.
Qed.

(** Every token is a non-empty run without separators. *)
Lemma tokens_from_runs sep cur s :
  forallb (fun c => negb (sep c)) cur = true ->
  Forall (fun w => w <> [] /\ forallb (fun c => negb (sep c)) w = true)
    (tokens_from sep cur s).
Proof.
  assert (Hrev : forall l, l <> [] ->
            forallb (fun c => negb (sep c)) l = true ->
            rev l <> [] /\ forallb (fun c => negb (sep c)) (rev l) = true).
  { intros l Hne Hl. split.
    - intros E. apply Hne. rewrite <- (rev_involutive l), E. reflexivity.
    - apply forallb_forall. intros x Hx. apply in_rev in Hx.
      revert x Hx. now apply forallb_forall. }
  revert cur; induction s as [|c r IH]; intros cur Hcur; cbn [tokens_from].
  - destruct cur as [|d cur]; constructor; [|constructor].
    apply Hrev; [discriminate | assumption].
  - destruct (sep c) eqn:E.
    + destruct cur as [|d cur]; [now apply IH|].
      constructor; [apply Hrev; [discriminate | assumption] | now apply IH].
    + apply IH. cbn [forallb]. rewrite E, Hcur. reflexivity.
Qed.

Lemma names_of_tokens fullName :
  names_of fullName = tokens (fun c => (c =? SPACE)%N) (trim fullName).
Proof.
  unfold names_of, tokens. rewrite tokens_from_split.
  destruct (split SPACE (trim fullName)); reflexivity.
Qed.

Lemma js_or_head (l : list JsString) : js_or (nth_error l 0) (js "") = hd [] l.
Proof.
  destruct l as [|[|c w] l]; reflexivity.
Qed.

Lemma js_or_self (w : JsString) : js_or (Some w) (js "") = w.
Proof.
  destruct w; reflexivity.
Qed.

(** C5 (as written): on "Mary<TAB>Jane Watson" the splitter of [onSubmit]
    gives [first_name] "Mary<TAB>Jane" and [last_name] "Watson", while
    splitting on whitespace gives "Mary" and "Jane Watson". *)
Lemma C5_counterexample :
  splitName tabbed_name = (js "Mary" ++ TAB :: js "Jane", js "Watson") /\
  split_on_whitespace tabbed_name = (js "Mary", js "Jane Watson") /\
  splitName tabbed_name <> split_on_whitespace tabbed_name.
Proof.
  split; [reflexivity|]. split; [reflexivity|].
  vm_compute. discriminate.
Qed.

(** C5 (amended): for every [fullName], the splitter trims the name and
    splits it at space characters (U+0020) only: [first_name] is the first
    run of non-space code units of the trimmed name and [last_name] the
    other runs joined with single spaces, both empty when there is none;
    "John Smith" gives "John" and "Smith", "Madonna" gives "Madonna" and
    "", "Mary Jane Watson" gives "Mary" and "Jane Watson", and "" gives
    "" and "". *)
Theorem C5_splitName_on_spaces :
  (forall fullName : JsString,
     splitName fullName
     = first_and_rest (tokens (fun c => (c =? SPACE)%N) (trim fullName))) /\
  splitName (js "John Smith") = (js "John", js "Smith") /\
  splitName (js "Madonna") = (js "Madonna", js "") /\
  splitName (js "Mary Jane Watson") = (js "Mary", js "Jane Watson") /\
  splitName (js "") = (js "", js "").
Proof.
  split; [|repeat split].
  intros fullName. unfold splitName, firstName_of, lastName_of, first_and_rest.
  rewrite js_or_head, js_or_self, names_of_tokens.
  destruct (tokens _ (trim fullName)); reflexivity.
Qed.

(** ** Missing session *)

Lemma js_not_true_iff (sessionId : SessionId) :
  js_not sessionId = true <-> sessionId = None \/ sessionId = Some (js "").
Proof.
  destruct sessionId as [[|c v]|]; simpl; split; auto;
    try discriminate; intros [H | H]; discriminate.
Qed.

(** C6 (as written): with no session and the empty draft the form starts
    with, validation runs first and the error shown is the generic
    "Please complete all required fields.", not the missing-session
    message. *)
Lemma C6_counterexample :
  js_not None = true /\
  error (fst (run (onSubmit initial_state None) initial_state))
  = Some msg_required /\
  error (fst (run (onSubmit initial_state None) initial_state))
  <> Some msg_missing_session.
Proof.
  split; [reflexivity|]. split; [reflexivity|].
  vm_compute. discriminate.
Qed.

(** C6 (amended): for every draft, if [sessionId] is absent ([null] or
    empty) then [onSubmit] ends without sending a request, whether or not
    the draft is valid. When the draft is valid the error shown is
    "Missing session. Please refresh and try again.", which differs from
    the generic validation message; when the draft is invalid, validation
    runs first and the generic validation message is shown. *)
Theorem C6_missing_session_blocks :
  forall (s : State) (sessionId : SessionId),
    js_not sessionId = true ->
    request_of (run (onSubmit s sessionId) s) = None /\
    snd (run (onSubmit s sessionId) s) = Finished /\
    error (fst (run (onSubmit s sessionId) s))
    = Some (if validate s then msg_missing_session else msg_required) /\
    msg_missing_session <> msg_required.
Proof.
  intros s sessionId Hs.
  destruct (run_onSubmit_cases s sessionId)
    as [(Hv & ->) | [(Hv & _ & ->) | (_ & Hs' & _)]];
    [| | congruence]; rewrite Hv; repeat split;
    vm_compute; discriminate.
Qed.

Lemma C6_witness :
  js_not None = true /\
  request_of (run (onSubmit example_state None) example_state) = None /\
  snd (run (onSubmit example_state None) example_state) = Finished /\
  error (fst (run (onSubmit example_state None) example_state))
  = Some (if validate example_state
          then msg_missing_session else msg_required) /\
  msg_missing_session <> msg_required.
Proof.
  split; [reflexivity|].
  apply (C6_missing_session_blocks example_state None). reflexivity.
Defined.

(** ** Outcome of the request *)

Lemma pending_of_onSubmit s sessionId s1 req k :
  run (onSubmit s sessionId) s = (s1, Pending req k) ->
  validate s = true /\ js_not sessionId = false /\
  s1 = apply_setter (setIsSubmitting true) (apply_setter (setError None) s) /\
  req = build_request s sessionId /\ k = onSubmit_after_await.
Proof.
  destruct (run_onSubmit_cases s sessionId)
    as [(Hv & ->) | [(Hv & Hs & ->) | (Hv & Hs & ->)]];
    try discriminate.
  intros [= <- <- <-]. auto.
Qed.

(** C7: when [onSubmit] has reached the [fetch], whatever the promise
    does, the waiting code runs to its end with nothing left uncaught and
    with [isSubmitting] cleared. A response with an HTTP success status
    sets [success] (the Success view) and leaves the error as it is; any
    other response, or a rejected promise, leaves [success] as it is and
    sets the error to a message that contains the clinic's phone number
    "(780) 250-8188". *)
Theorem C7_request_outcomes :
  forall (s : State) (sessionId : SessionId)
         (s1 : State) (req : Request) (k : FetchOutcome -> Prog),
    run (onSubmit s sessionId) s = (s1, Pending req k) ->
    forall (o : FetchOutcome) (s' : State),
      snd (run (k o) s') = Finished /\
      isSubmitting (fst (run (k o) s')) = false /\
      (if http_success o
       then success (fst (run (k o) s')) = true /\
            view_state (fst (run (k o) s')) = Success /\
            error (fst (run (k o) s')) = error s'
       else success (fst (run (k o) s')) = success s' /\
            error (fst (run (k o) s')) = Some msg_failed /\
            includes fallback_phone msg_failed = true).
Proof.
  intros s sessionId s1 req k H o s'.
  apply pending_of_onSubmit in H as (_ & _ & _ & _ & ->).
  rewrite run_after_await. cbn [fst snd].
  destruct (http_success o); repeat split.
Qed.

Lemma C7_witness :
  (let r := run (onSubmit_after_await (Fulfilled {| http_status := 500 |}))
              (apply_setter (setIsSubmitting true)
                 (apply_setter (setError None) example_state)) in
   snd r = Finished /\
   isSubmitting (fst r) = false /\
   success (fst r) = false /\
   error (fst r) = Some msg_failed /\
   includes fallback_phone msg_failed = true).
Proof.
  exact (C7_request_outcomes example_state (Some (js "abc123"))
           (s1 := apply_setter (setIsSubmitting true)
                    (apply_setter (setError None) example_state))
           (req := build_request example_state (Some (js "abc123")))
           (k := onSubmit_after_await)
           eq_refl (Fulfilled {| http_status := 500 |})
           (apply_setter (setIsSubmitting true)
              (apply_setter (setError None) example_state))).
Defined.

(** ** Frame of a submit *)

Lemma draft_apply_setter c s :
  field_setter c = false -> draft (apply_setter c s) = draft s.
Proof.
  destruct c; simpl; intros H; try discriminate; reflexivity.
Qed.

(** C10: a submit never changes the six draft fields: not in the part of
    [onSubmit] that runs up to its end or to the [fetch], and not in the
    part that runs once the request has settled, whatever its outcome.
    When validation fails or the session is missing, the state after
    [onSubmit] is the state before it with only the error replaced. *)
Theorem C10_submit_keeps_draft :
  forall (s : State) (sessionId : SessionId),
    draft (fst (run (onSubmit s sessionId) s)) = draft s /\
    (forall s1 req k,
       run (onSubmit s sessionId) s = (s1, Pending req k) ->
       forall (o : FetchOutcome) (s' : State),
         draft (fst (run (k o) s')) = draft s') /\
    (validate s = false \/ js_not sessionId = true ->
     fst (run (onSubmit s sessionId) s)
     = apply_setter
         (setError (Some (if validate s
                          then msg_missing_session else msg_required))) s).
Proof.
  intros s sessionId. split; [|split].
  - destruct (run_onSubmit_cases s sessionId)
      as [(_ & ->) | [(_ & _ & ->) | (_ & _ & ->)]]; reflexivity.
  - intros s1 req k H o s'.
    apply pending_of_onSubmit in H as (_ & _ & _ & _ & ->).
    rewrite run_after_await. destruct (http_success o); reflexivity.
  - intros H.
    destruct (run_onSubmit_cases s sessionId)
      as [(Hv & ->) | [(Hv & _ & ->) | (Hv & Hs & _)]].
    + rewrite Hv. reflexivity.
    + rewrite Hv. reflexivity.
    + destruct H; congruence.
Qed.

Lemma C10_witness :
  draft (fst (run (onSubmit initial_state None) initial_state))
  = draft initial_state /\
  fst (run (onSubmit initial_state None) initial_state)
  = apply_setter (setError (Some msg_required)) initial_state /\
  draft (fst (run (onSubmit_after_await (Rejected (TypeError (js "Failed to fetch"))))
                (apply_setter (setPhone (js "780"))
                   (apply_setter (setIsSubmitting true) example_state))))
  = draft (apply_setter (setPhone (js "780"))
             (apply_setter (setIsSubmitting true) example_state)).
Proof.
  pose proof (C10_submit_keeps_draft initial_state None) as (H1 & _ & H3).
  pose proof (C10_submit_keeps_draft example_state (Some (js "abc123")))
    as (_ & H2 & _).
  split; [exact H1|]. split.
  - apply H3. left. reflexivity.
  - exact (H2 (apply_setter (setIsSubmitting true)
                (apply_setter (setError None) example_state))
             (build_request example_state (Some (js "abc123")))
             onSubmit_after_await eq_refl
             (Rejected (TypeError (js "Failed to fetch")))
             (apply_setter (setPhone (js "780"))
                (apply_setter (setIsSubmitting true) example_state))).
Defined.

(** ** The page: one request at a time, and the terminal view *)

Lemma view_state_Success s : view_state s = Success <-> success s = true.
Proof.
  unfold view_state, render.
  destruct (success s), (isSubmitting s), (error s); split;
    auto; discriminate.
Qed.

Lemma view_state_Submitting s :
  view_state s = Submitting <-> success s = false /\ isSubmitting s = true.
Proof.
  unfold view_state, render.
  destruct (success s), (isSubmitting s), (error s); split;
    auto; try discriminate; intros [? ?]; discriminate.
Qed.

Lemma flow_cells_apply_setter c s :
  field_setter c = true ->
  isSubmitting (apply_setter c s) = isSubmitting s /\
  success (apply_setter c s) = success s /\
  error (apply_setter c s) = error s.
Proof.
  destruct c; simpl; intros H; try discriminate; auto.
Qed.

Lemma on_form_inv pg c :
  field_setter c = true -> page_inv pg -> page_inv (on_form pg c).
Proof.
  intros Hc Hinv. unfold on_form.
  destruct (render (state pg)); [assumption|].
  unfold start. cbn [run].
  destruct (flow_cells_apply_setter c (state pg) Hc) as (Hi & Hs & _).
  unfold page_inv in *. cbn [state inflight unhandled].
  rewrite Hi, Hs. exact Hinv.
Qed.

Lemma on_form_success pg c :
  success (state pg) = true -> on_form pg c = pg.
Proof.
  intros H. unfold on_form, render. rewrite H. reflexivity.
Qed.

Lemma click_inert pg sessionId :
  success (state pg) = true \/ isSubmitting (state pg) = true ->
  step pg (ClickSubmit sessionId) = pg.
Proof.
  intros H. cbn [step]. unfold render.
  destruct (success (state pg)); [reflexivity|].
  destruct H as [H | H]; [discriminate|]. rewrite H. reflexivity.
Qed.

Lemma click_inv pg sessionId :
  page_inv pg -> page_inv (step pg (ClickSubmit sessionId)).
Proof.
  intros Hinv.
  destruct (success (state pg)) eqn:Hsucc.
  { rewrite click_inert by auto. assumption. }
  destruct (isSubmitting (state pg)) eqn:Hsub.
  { rewrite click_inert by auto. assumption. }
  destruct Hinv as (Hun & [(Hfl & _) | (req & _ & Hsub' & _)]);
    [|congruence].
  cbn [step]. unfold render. rewrite Hsucc, Hsub. unfold start.
  destruct (run_onSubmit_cases (state pg) sessionId)
    as [(_ & ->) | [(_ & _ & ->) | (_ & _ & ->)]];
    unfold page_inv; cbn [state inflight unhandled apply_setter
                          isSubmitting success];
    (split; [assumption|]).
  - left. auto.
  - left. auto.
  - right. rewrite Hfl. exists (build_request (state pg) sessionId).
    cbn [app]. auto.
Qed.

Lemma settle_inv pg i o :
  page_inv pg -> page_inv (step pg (FetchSettled i o)).
Proof.
  intros Hinv. pose proof Hinv as (Hun & [(Hfl & Hsub) | (req & Hfl & _)]);
    cbn [step]; rewrite Hfl.
  - destruct i; exact Hinv.
  - destruct i as [|i]; cbn [nth_error].
    + unfold start. cbn [state]. rewrite run_after_await.
      unfold page_inv.
      cbn [state inflight unhandled remove_nth firstn skipn app].
      split; [assumption|]. left. split; [reflexivity|].
      destruct (http_success o); reflexivity.
    + destruct i; exact Hinv.
Qed.

Lemma step_inv pg ev : page_inv pg -> page_inv (step pg ev).
Proof.
  destruct ev; try (apply on_form_inv; reflexivity).
  - apply click_inv.
  - apply settle_inv.
Qed.

Lemma initial_page_inv : page_inv initial_page.
Proof.
  split; [reflexivity|]. left. split; reflexivity.
Qed.

Lemma run_events_inv pg evs : page_inv pg -> page_inv (run_events pg evs).
Proof.
  revert pg; induction evs as [|ev evs IH]; intros pg H; [exact H|].
  apply IH, step_inv, H.
Qed.

Lemma run_events_app pg evs evs' :
  run_events pg (evs ++ evs') = run_events (run_events pg evs) evs'.
Proof.
  apply fold_left_app.
Qed.

Lemma step_keeps_success pg ev :
  page_inv pg -> success (state pg) = true ->
  success (state (step pg ev)) = true.
Proof.
  intros Hinv Hs.
  destruct ev; try (cbn [step]; rewrite on_form_success; assumption).
  - rewrite click_inert by auto. assumption.
  - destruct Hinv as (_ & [(Hfl & _) | (req & _ & _ & Hs')]); [|congruence].
    cbn [step]. rewrite Hfl. destruct i; assumption.
Qed.

Lemma run_events_keep_success pg evs :
  page_inv pg -> success (state pg) = true ->
  success (state (run_events pg evs)) = true.
Proof.
  revert pg; induction evs as [|ev evs IH]; intros pg Hinv Hs; [exact Hs|].
  apply IH; [apply step_inv, Hinv | apply step_keeps_success; assumption].
Qed.

(** The code that settles a request never clears [success], and neither
    does any part of [onSubmit] or any setter of a draft field. *)
Lemma handlers_keep_success s :
  success s = true ->
  (forall sessionId, success (fst (run (onSubmit s sessionId) s)) = true) /\
  (forall o, success (fst (run (onSubmit_after_await o) s)) = true) /\
  (forall c, field_setter c = true -> success (apply_setter c s) = true).
Proof.
  intros Hs. split; [|split].
  - intros sessionId.
    destruct (run_onSubmit_cases s sessionId)
      as [(_ & ->) | [(_ & _ & ->) | (_ & _ & ->)]]; exact Hs.
  - intros o. rewrite run_after_await.
    destruct (http_success o); [reflexivity | exact Hs].
  - intros c Hc. destruct (flow_cells_apply_setter c s Hc) as (_ & -> & _).
    exact Hs.
Qed.

(** C8: once a page that started from the initial state shows the Success
    view, it shows the Success view after every further sequence of field
    edits, submit clicks and request completions: it is never again in
    Editing, Submitting or EditingWithError. *)
Theorem C8_success_is_terminal :
  forall (evs evs' : list Event),
    view_state (state (run_events initial_page evs)) = Success ->
    view_state (state (run_events initial_page (evs ++ evs'))) = Success.
Proof.
  intros evs evs' H. rewrite run_events_app.
  apply view_state_Success. apply view_state_Success in H.
  apply run_events_keep_success; [|exact H].
  apply run_events_inv, initial_page_inv.
Qed.

Lemma C8_witness :
  view_state
    (state (run_events initial_page
              ([InputFullName (js "John Smith");
                InputPhone (js "7802508188");
                ClickSubmit (Some (js "abc123"));
                FetchSettled 0 (Fulfilled {| http_status := 200 |})]
               ++ [InputFullName (js "J");
                   CheckConsentPrivacy false;
                   ClickSubmit (Some (js "abc123"));
                   ClickSubmit None;
                   FetchSettled 0 (Rejected (TypeError (js "Failed to fetch")))])))
  = Success.
Proof.
  apply (C8_success_is_terminal
           [InputFullName (js "John Smith");
            InputPhone (js "7802508188");
            ClickSubmit (Some (js "abc123"));
            FetchSettled 0 (Fulfilled {| http_status := 200 |})]).
  reflexivity.
Defined.

(** C9: on every page reached from the initial state by field edits,
    submit clicks and request completions, at most one request is out;
    [isSubmitting] is set exactly when a request is out; while it is set
    a submit click changes nothing (no second request starts); and when
    the outstanding request settles, with any response or with a
    rejection, [isSubmitting] is cleared and no request is out. *)
Theorem C9_one_request_in_flight :
  forall (evs : list Event),
    let pg := run_events initial_page evs in
    List.length (inflight pg) <= 1 /\
    (isSubmitting (state pg) = true <-> List.length (inflight pg) = 1) /\
    (isSubmitting (state pg) = true ->
     forall sessionId, step pg (ClickSubmit sessionId) = pg) /\
    (forall i o,
       i < List.length (inflight pg) ->
       isSubmitting (state (step pg (FetchSettled i o))) = false /\
       inflight (step pg (FetchSettled i o)) = []).
Proof.
  intros evs pg.
  assert (Hinv : page_inv pg) by apply run_events_inv, initial_page_inv.
  split; [|split; [|split]].
  - destruct Hinv as (_ & [(-> & _) | (req & -> & _)]); simpl; lia.
  - destruct Hinv as (_ & [(-> & ->) | (req & -> & -> & _)]); simpl;
      split; auto; discriminate.
  - intros H sessionId. apply click_inert. auto.
  - intros i o Hi.
    pose proof (settle_inv i o Hinv) as (_ & Hafter).
    destruct Hinv as (_ & [(Hfl & _) | (req & Hfl & _)]);
      rewrite Hfl in Hi; simpl in Hi; [lia|].
    assert (i = 0) by lia. subst i.
    cbn [step]. rewrite Hfl. cbn [nth_error]. unfold start.
    cbn [state]. rewrite run_after_await.
    cbn [state inflight remove_nth firstn skipn app].
    split; [|reflexivity]. destruct (http_success o); reflexivity.
Qed.

Lemma C9_witness :
  let pg := run_events initial_page
              [InputFullName (js "John Smith");
               InputPhone (js "7802508188");
               ClickSubmit (Some (js "abc123"))] in
  List.length (inflight pg) = 1 /\
  isSubmitting (state pg) = true /\
  step pg (ClickSubmit (Some (js "abc123"))) = pg /\
  isSubmitting
    (state (step pg (FetchSettled 0 (Fulfilled {| http_status := 503 |}))))
  = false /\
  inflight (step pg (FetchSettled 0 (Fulfilled {| http_status := 503 |})))
  = [].
Proof.
  intros pg.
  pose proof (C9_one_request_in_flight
                [InputFullName (js "John Smith");
                 InputPhone (js "7802508188");
                 ClickSubmit (Some (js "abc123"))]) as (_ & _ & H3 & H4).
  split; [reflexivity|]. split; [reflexivity|].
  split; [apply H3; reflexivity|].
  apply H4. vm_compute. lia.
Defined.

(** * Further properties of the page *)

(** ** Trimming *)

Lemma trimStart_all_whitespace s :
  all_whitespace s = true -> trimStart s = [].
Proof.
  unfold all_whitespace. induction s as [|c r IH]; [reflexivity|].
  cbn [forallb trimStart]. intros H. apply andb_true_iff in H as (-> & Hr).
  auto.
Qed.

Lemma trimStart_head s c r :
  trimStart s = c :: r -> is_js_whitespace c = false.
Proof.
  induction s as [|d s IH]; cbn [trimStart]; [discriminate|].
  destruct (is_js_whitespace d) eqn:E; [exact IH|].
  intros [= <- _]. exact E.
Qed.

Lemma trimStart_fixed s :
  match s with [] => True | c :: _ => is_js_whitespace c = false end ->
  trimStart s = s.
Proof.
  destruct s as [|c r]; [reflexivity|]. cbn [trimStart]. now intros ->.
Qed.

Lemma trimStart_idempotent s : trimStart (trimStart s) = trimStart s.
Proof.
  apply trimStart_fixed.
  destruct (trimStart s) as [|c r] eqn:E; [exact I|].
  exact (trimStart_head s E).
Qed.

Lemma trimStart_app s p :
  trimStart (s ++ p)
  = if all_whitespace s then trimStart p else trimStart s ++ p.
Proof.
  unfold all_whitespace. induction s as [|c r IH]; [reflexivity|].
  cbn [app trimStart forallb].
  destruct (is_js_whitespace c); [exact IH | reflexivity].
Qed.

Lemma all_whitespace_rev s : all_whitespace (rev s) = all_whitespace s.
Proof.
  unfold all_whitespace. induction s as [|c r IH]; [reflexivity|].
  cbn [rev forallb]. rewrite forallb_app, IH. cbn [forallb].
  rewrite andb_true_r. apply andb_comm.
Qed.

Lemma length_trimStart s : List.length (trimStart s) <= List.length s.
Proof.
  induction s as [|c r IH]; cbn [trimStart]; [lia|].
  destruct (is_js_whitespace c); simpl; lia.
Qed.

Lemma length_trim s : List.length (trim s) <= List.length s.
Proof.
  unfold trim, trimEnd. rewrite length_rev.
  etransitivity; [apply length_trimStart|]. rewrite length_rev.
  apply length_trimStart.
Qed.

Lemma trim_all_whitespace s : all_whitespace s = true -> trim s = [].
Proof.
  intros H. unfold trim. rewrite (trimStart_all_whitespace s H). reflexivity.
Qed.

Lemma trimEnd_cons c r :
  is_js_whitespace c = false -> trimEnd (c :: r) = c :: trimEnd r.
Proof.
  intros Hc. unfold trimEnd. cbn [rev]. rewrite trimStart_app.
  destruct (all_whitespace (rev r)) eqn:E.
  - rewrite (trimStart_all_whitespace _ E). cbn [trimStart]. rewrite Hc.
    reflexivity.
  - rewrite rev_app_distr. reflexivity.
Qed.

(** A trimmed string does not start with whitespace... *)
Lemma trim_head s c r : trim s = c :: r -> is_js_whitespace c = false.
Proof.
  unfold trim. destruct (trimStart s) as [|d t] eqn:E; [discriminate|].
  pose proof (trimStart_head s E) as Hd.
  rewrite (trimEnd_cons d t Hd). intros [= <- _]. exact Hd.
Qed.

(** ... and does not end with whitespace. *)
Lemma trim_last s c r : rev (trim s) = c :: r -> is_js_whitespace c = false.
Proof.
  unfold trim, trimEnd. rewrite rev_involutive. apply trimStart_head.
Qed.

Lemma trimEnd_idempotent s : trimEnd (trimEnd s) = trimEnd s.
Proof.
  unfold trimEnd. rewrite rev_involutive, trimStart_idempotent. reflexivity.
Qed.

Lemma trim_idempotent s : trim (trim s) = trim s.
Proof.
  assert (H : trimStart (trim s) = trim s).
  { apply trimStart_fixed. destruct (trim s) as [|c r] eqn:E; [exact I|].
    exact (trim_head s E). }
  unfold trim at 1. rewrite H. unfold trim. apply trimEnd_idempotent.
Qed.

Lemma trimEnd_app s p :
  all_whitespace p = true -> trimEnd (s ++ p) = trimEnd s.
Proof.
  intros Hp. unfold trimEnd. rewrite rev_app_distr, trimStart_app.
  rewrite all_whitespace_rev, Hp. reflexivity.
Qed.

Lemma trim_padded pre s post :
  all_whitespace pre = true -> all_whitespace post = true ->
  trim (pre ++ s ++ post) = trim s.
Proof.
  intros Hpre Hpost. unfold trim.
  rewrite trimStart_app, Hpre, trimStart_app.
  destruct (all_whitespace s) eqn:E.
  - rewrite (trimStart_all_whitespace post Hpost).
    rewrite (trimStart_all_whitespace s E). reflexivity.
  - apply trimEnd_app, Hpost.
Qed.

(** ** Validation and whitespace *)

Lemma validate_false_no_request s sessionId :
  validate s = false ->
  request_of (run (onSubmit s sessionId) s) = None /\
  error (fst (run (onSubmit s sessionId) s)) = Some msg_required.
Proof.
  intros H. rewrite (run_onSubmit_invalid s sessionId H). split; reflexivity.
Qed.

(** X1: a draft whose name or phone holds only whitespace, or whose name
    has fewer than 3 code units or whose phone has fewer than 10 even
    before trimming, never validates: [onSubmit] sends nothing and shows
    the generic message, whatever the other fields and the session are. *)
Theorem blank_or_short_draft_rejected :
  forall (s : State) (sessionId : SessionId),
    all_whitespace (fullName s) = true \/ List.length (fullName s) < 3 \/
    all_whitespace (phone s) = true \/ List.length (phone s) < 10 ->
    validate s = false /\
    request_of (run (onSubmit s sessionId) s) = None /\
    error (fst (run (onSubmit s sessionId) s)) = Some msg_required.
Proof.
  intros s sessionId H.
  assert (Hv : validate s = false).
  { destruct (validate s) eqn:E; [|reflexivity]. exfalso.
    apply validate_iff in E as (Hn & Hp & _).
    pose proof (length_trim (fullName s)). pose proof (length_trim (phone s)).
    destruct H as [H | [H | [H | H]]]; try lia.
    - rewrite (trim_all_whitespace _ H) in Hn. simpl in Hn. lia.
    - rewrite (trim_all_whitespace _ H) in Hp. simpl in Hp. lia. }
  split; [exact Hv | now apply validate_false_no_request].
Qed.

Lemma blank_or_short_draft_rejected_witness :
  validate (apply_setter (setFullName (js "     ")) example_state) = false /\
  request_of
    (run (onSubmit (apply_setter (setFullName (js "     ")) example_state)
            (Some (js "abc123")))
       (apply_setter (setFullName (js "     ")) example_state)) = None /\
  error
    (fst (run (onSubmit (apply_setter (setFullName (js "     ")) example_state)
                 (Some (js "abc123")))
            (apply_setter (setFullName (js "     ")) example_state)))
  = Some msg_required.
Proof.
  apply (blank_or_short_draft_rejected
           (apply_setter (setFullName (js "     ")) example_state)
           (Some (js "abc123"))).
  left. reflexivity.
Defined.

(** X2: whitespace typed before or after the name or the phone number
    changes nothing in validation, and whitespace around the name changes
    nothing in the first and last name that are sent. *)
Theorem surrounding_whitespace_ignored :
  forall (s : State) (pre v post : JsString),
    all_whitespace pre = true -> all_whitespace post = true ->
    validate (apply_setter (setFullName (pre ++ v ++ post)) s)
    = validate (apply_setter (setFullName v) s) /\
    validate (apply_setter (setPhone (pre ++ v ++ post)) s)
    = validate (apply_setter (setPhone v) s) /\
    splitName (pre ++ v ++ post) = splitName v.
Proof.
  intros s pre v post Hpre Hpost.
  unfold validate, schema_input, splitName, firstName_of, lastName_of,
    names_of.
  cbn [apply_setter fullName phone issueType location consentPrivacy
       consentCommunication].
  rewrite !(@trim_padded pre v post Hpre Hpost). repeat split.
Qed.

Lemma surrounding_whitespace_ignored_witness :
  validate (apply_setter (setFullName ([TAB; SPACE] ++ js "Al" ++ [SPACE]))
              example_state)
  = validate (apply_setter (setFullName (js "Al")) example_state) /\
  validate (apply_setter (setPhone ([TAB; SPACE] ++ js "Al" ++ [SPACE]))
              example_state)
  = validate (apply_setter (setPhone (js "Al")) example_state) /\
  splitName ([TAB; SPACE] ++ js "Al" ++ [SPACE]) = splitName (js "Al").
Proof.
  apply (@surrounding_whitespace_ignored example_state
           [TAB; SPACE] (js "Al") [SPACE]); reflexivity.
Defined.

(** ** More on the name splitter *)

Lemma not_whitespace_not_space c :
  is_js_whitespace c = false -> (c =? SPACE)%N = false.
Proof.
  intros H. destruct (c =? SPACE)%N eqn:E; [|reflexivity].
  apply N.eqb_eq in E. subst c. discriminate H.
Qed.

Lemma splitter_unfold fullName :
  firstName_of fullName = hd [] (names_of fullName) /\
  lastName_of fullName = join SPACE (tl (names_of fullName)).
Proof.
  unfold firstName_of, lastName_of. rewrite js_or_head, js_or_self.
  split; [reflexivity|]. destruct (names_of fullName); reflexivity.
Qed.

Lemma tokens_from_cur sep cur s :
  cur <> [] -> tokens_from sep cur s <> [].
Proof.
  revert cur; induction s as [|c r IH]; intros cur Hcur; cbn [tokens_from].
  - destruct cur; [contradiction | discriminate].
  - destruct (sep c).
    + destruct cur; [contradiction | discriminate].
    + apply IH. discriminate.
Qed.

Lemma tokens_from_some sep cur s :
  (exists x, In x s /\ sep x = false) -> tokens_from sep cur s <> [].
Proof.
  revert cur; induction s as [|c r IH]; intros cur (x & Hin & Hx).
  - destruct Hin.
  - cbn [tokens_from]. destruct (sep c) eqn:E.
    + destruct Hin as [-> | Hin]; [congruence|].
      destruct cur; [|discriminate]. apply IH. eauto.
    + apply tokens_from_cur. discriminate.
Qed.

Lemma tokens_from_prefix sep cur s w ws :
  cur <> [] -> tokens_from sep cur s = w :: ws ->
  exists rest, rev cur ++ s = w ++ rest.
Proof.
  revert cur; induction s as [|c r IH]; intros cur Hcur; cbn [tokens_from].
  - destruct cur as [|d cur]; [contradiction|]. intros [= <- _].
    exists []. reflexivity.
  - destruct (sep c).
    + destruct cur as [|d cur]; [contradiction|]. intros [= <- _].
      exists (c :: r). reflexivity.
    + intros H. apply IH in H as (rest & H); [|discriminate].
      exists rest. rewrite <- H. cbn [rev]. rewrite <- app_assoc.
      reflexivity.
Qed.

Lemma concat_tokens_from sep cur s :
  List.concat (tokens_from sep cur s)
  = rev cur ++ filter (fun c => negb (sep c)) s.
Proof.
  revert cur; induction s as [|c r IH]; intros cur;
    cbn [tokens_from filter].
  - destruct cur; cbn [List.concat]; rewrite ?app_nil_r; reflexivity.
  - destruct (sep c); cbn [negb].
    + destruct cur as [|d cur].
      * apply IH.
      * cbn [List.concat]. rewrite IH. reflexivity.
    + rewrite IH. cbn [rev]. rewrite <- app_assoc. reflexivity.
Qed.

Lemma remove_spaces_join (l : list JsString) :
  Forall (fun w => forallb (fun c => negb (c =? SPACE)%N) w = true) l ->
  remove_spaces (join SPACE l) = List.concat l.
Proof.
  unfold remove_spaces. induction 1 as [|w l Hw Hl IH]; [reflexivity|].
  assert (Hfw : filter (fun c => negb (c =? SPACE)%N) w = w).
  { clear - Hw. induction w as [|c w IHw]; [reflexivity|].
    cbn [forallb] in Hw. apply andb_true_iff in Hw as (Hc & Hw).
    cbn [filter]. rewrite Hc, (IHw Hw). reflexivity. }
  destruct l as [|w' l'].
  - cbn [join List.concat]. rewrite app_nil_r. exact Hfw.
  - change (join SPACE (w :: w' :: l'))
      with (w ++ SPACE :: join SPACE (w' :: l')).
    rewrite filter_app, Hfw. cbn [filter].
    change (SPACE =? SPACE)%N with true. cbn [negb List.concat].
    rewrite IH. reflexivity.
Qed.

Lemma names_of_runs fullName :
  Forall (fun w => w <> [] /\
                   forallb (fun c => negb (c =? SPACE)%N) w = true)
    (names_of fullName).
Proof.
  rewrite names_of_tokens. apply tokens_from_runs. reflexivity.
Qed.

Lemma tokens_from_no_sep sep cur s :
  (forall x, In x s -> sep x = false) -> tl (tokens_from sep cur s) = [].
Proof.
  revert cur; induction s as [|c r IH]; intros cur H; cbn [tokens_from].
  - destruct cur; reflexivity.
  - rewrite (H c (or_introl eq_refl)). apply IH.
    intros x Hx. apply H. now right.
Qed.

Lemma tokens_from_first_sep sep cur a c b :
  (forall x, In x a -> sep x = false) -> sep c = true -> cur <> [] ->
  tokens_from sep cur (a ++ c :: b)
  = (rev cur ++ a) :: tokens_from sep [] b.
Proof.
  revert cur; induction a as [|d a IH]; intros cur Ha Hc Hcur.
  - cbn [app tokens_from]. rewrite Hc, app_nil_r.
    destruct cur; [contradiction | reflexivity].
  - cbn [app tokens_from]. rewrite (Ha d (or_introl eq_refl)).
    rewrite IH; [|intros x Hx; apply Ha; now right | exact Hc | discriminate].
    cbn [rev]. rewrite <- app_assoc. reflexivity.
Qed.

Lemma first_occurrence (x : N) (l : list N) :
  In x l -> exists a b, l = a ++ x :: b /\ ~ In x a.
Proof.
  induction l as [|y l IH]; [intros []|].
  destruct (N.eq_dec y x) as [-> | Hne].
  - intros _. exists [], l. split; [reflexivity | intros []].
  - intros [H | H]; [contradiction|].
    destruct (IH H) as (a & b & -> & Ha).
    exists (y :: a), b. split; [reflexivity|].
    intros [E | E]; [contradiction | exact (Ha E)].
Qed.

Lemma join_not_nil sep w ws : w <> [] -> join sep (w :: ws) <> [].
Proof.
  intros Hw. destruct w as [|c w]; [contradiction|].
  destruct ws; discriminate.
Qed.

Lemma names_of_trimmed_cons fullName c r :
  trim fullName = c :: r ->
  exists w ws rest,
    names_of fullName = w :: ws /\ w <> [] /\ trim fullName = w ++ rest.
Proof.
  intros E. pose proof (not_whitespace_not_space c (trim_head fullName E)) as Hc.
  rewrite names_of_tokens. unfold tokens. rewrite E.
  cbn [tokens_from]. rewrite Hc.
  destruct (tokens_from (fun c0 => (c0 =? SPACE)%N) [c] r) as [|w ws] eqn:T.
  - exfalso. revert T. apply tokens_from_cur. discriminate.
  - assert (Hcur : [c] <> []) by discriminate.
    destruct (@tokens_from_prefix _ [c] r w ws Hcur T) as (rest & Hrest).
    exists w, ws, rest. split; [reflexivity|]. split; [|exact Hrest].
    pose proof (tokens_from_runs (fun c0 => (c0 =? SPACE)%N) [c] r) as HF.
    rewrite T in HF. cbn [forallb] in HF. rewrite Hc in HF.
    specialize (HF eq_refl). inversion HF as [|? ? (Hw & _) _]. exact Hw.
Qed.

(** X3: in every request that [onSubmit] sends, [first_name] is not
    empty, holds no space, and is the beginning of the trimmed name. *)
Theorem sent_first_name_is_leading_word :
  forall (s : State) (sessionId : SessionId) (req : Request),
    request_of (run (onSubmit s sessionId) s) = Some req ->
    Payload.first_name (Payload.patient_data (body req)) <> [] /\
    ~ In SPACE (Payload.first_name (Payload.patient_data (body req))) /\
    exists rest,
      trim (fullName s)
      = Payload.first_name (Payload.patient_data (body req)) ++ rest.
Proof.
  intros s sessionId req H.
  apply request_of_onSubmit in H as (Hv & _ & ->).
  cbn [body build_request build_body Payload.patient_data Payload.first_name].
  apply validate_iff in Hv as (Hlen & _).
  destruct (trim (fullName s)) as [|c r] eqn:E; [simpl in Hlen; lia|].
  destruct (names_of_trimmed_cons (fullName s) E)
    as (w & ws & rest & Hn & Hw & Hrest).
  destruct (splitter_unfold (fullName s)) as (-> & _).
  pose proof (names_of_runs (fullName s)) as HF.
  rewrite Hn in HF |- *. cbn [hd].
  inversion HF as [|? ? (_ & Hns) _]. subst.
  split; [exact Hw|]. split; [|exists rest; rewrite <- E; exact Hrest].
  intros Hin. rewrite forallb_forall in Hns. specialize (Hns SPACE Hin).
  discriminate.
Qed.

Lemma sent_first_name_is_leading_word_witness :
  Payload.first_name
    (Payload.patient_data
       (body (build_request padded_phone_state (Some (js "abc123"))))) <> [] /\
  ~ In SPACE
      (Payload.first_name
         (Payload.patient_data
            (body (build_request padded_phone_state (Some (js "abc123")))))) /\
  exists rest,
    trim (fullName padded_phone_state)
    = Payload.first_name
        (Payload.patient_data
           (body (build_request padded_phone_state (Some (js "abc123")))))
      ++ rest.
Proof.
  apply (@sent_first_name_is_leading_word padded_phone_state
           (Some (js "abc123"))
           (build_request padded_phone_state (Some (js "abc123")))).
  reflexivity.
Defined.

(** X4: the splitter loses nothing but spaces: for every name, the first
    and last name put together hold, in order, exactly the code units of
    the trimmed name that are not spaces. *)
Theorem splitName_drops_only_spaces :
  forall fullName : JsString,
    remove_spaces (firstName_of fullName ++ lastName_of fullName)
    = remove_spaces (trim fullName).
Proof.
  intros fullName.
  destruct (splitter_unfold fullName) as (-> & ->).
  pose proof (names_of_runs fullName) as HF.
  assert (HF' : Forall (fun w => forallb (fun c => negb (c =? SPACE)%N) w
                                 = true) (names_of fullName)).
  { revert HF. apply Forall_impl. intros w (_ & H). exact H. }
  assert (Hc : List.concat (names_of fullName) = remove_spaces (trim fullName)).
  { rewrite names_of_tokens. unfold tokens. rewrite concat_tokens_from.
    reflexivity. }
  rewrite <- Hc.
  destruct (names_of fullName) as [|w ws]; [reflexivity|].
  cbn [hd tl List.concat]. inversion HF' as [|? ? Hw Hws]. subst.
  unfold remove_spaces at 1. rewrite filter_app.
  fold (remove_spaces (join SPACE ws)). rewrite (remove_spaces_join Hws).
  f_equal. clear - Hw. induction w as [|c w IHw]; [reflexivity|].
  cbn [forallb] in Hw. apply andb_true_iff in Hw as (Hc & Hw).
  cbn [filter]. rewrite Hc, (IHw Hw). reflexivity.
Qed.

(** X5: the last name is empty exactly when the trimmed name holds no
    space: a one-word name has no last name, and a name with a space in
    it always has one. *)
Theorem lastName_empty_iff_no_space :
  forall fullName : JsString,
    lastName_of fullName = [] <-> ~ In SPACE (trim fullName).
Proof.
  intros fullName. destruct (splitter_unfold fullName) as (_ & ->).
  split.
  - intros Hl Hin.
    destruct (first_occurrence _ _ Hin) as (a & b & E & Ha).
    assert (Hsep : forall x, In x a -> (x =? SPACE)%N = false).
    { intros x Hx. apply N.eqb_neq. intros ->. exact (Ha Hx). }
    destruct a as [|c a].
    { pose proof (trim_head fullName E) as Hws. discriminate Hws. }
    assert (Hb : exists x, In x b /\ (x =? SPACE)%N = false).
    { destruct (rev b) as [|z rb] eqn:Eb.
      - assert (b = []) by (rewrite <- (rev_involutive b), Eb; reflexivity).
        subst b.
        assert (Er : rev (trim fullName) = SPACE :: rev (c :: a)).
        { rewrite E, rev_app_distr. reflexivity. }
        pose proof (trim_last fullName Er) as Hws. discriminate Hws.
      - assert (Er : rev (trim fullName) = z :: rb ++ SPACE :: rev (c :: a)).
        { rewrite E, rev_app_distr.
          change (rev (SPACE :: b)) with (rev b ++ [SPACE]).
          rewrite Eb, <- !app_assoc. reflexivity. }
        exists z. split.
        + apply in_rev. rewrite Eb. now left.
        + apply not_whitespace_not_space, (trim_last fullName Er). }
    revert Hl. rewrite names_of_tokens. unfold tokens. rewrite E.
    cbn [app tokens_from]. rewrite (Hsep c (or_introl eq_refl)).
    rewrite tokens_from_first_sep;
      [|intros x Hx; apply Hsep; now right | reflexivity | discriminate].
    cbn [tl].
    destruct (tokens_from (fun c0 => (c0 =? SPACE)%N) [] b) as [|w ws] eqn:T.
    { exfalso. revert T. apply tokens_from_some. exact Hb. }
    apply join_not_nil.
    pose proof (tokens_from_runs (fun c0 => (c0 =? SPACE)%N) [] b eq_refl)
      as HF.
    rewrite T in HF. inversion HF as [|? ? (Hw & _) _]. exact Hw.
  - intros Hno. rewrite names_of_tokens. unfold tokens.
    rewrite tokens_from_no_sep; [reflexivity|].
    intros x Hx. apply N.eqb_neq. intros ->. exact (Hno Hx).
Qed.

(** ** When a request goes out, and what it carries *)

Lemma js_not_false_iff (sessionId : SessionId) :
  js_not sessionId = false <-> exists v, sessionId = Some v /\ v <> [].
Proof.
  destruct sessionId as [[|c v]|]; simpl; split; try discriminate.
  - intros (v & [= <-] & H). contradiction.
  - intros _. eexists. split; [reflexivity | discriminate].
  - reflexivity.
  - intros (v & H & _). discriminate.
Qed.

(** X6: [onSubmit] sends a request exactly when the draft meets the
    schema and the session identifier is a non-empty string. When it
    does, the request is the one built from the draft, the error is
    cleared and [isSubmitting] is set; when it does not, [isSubmitting] is
    left as it was and an error message is shown. *)
Theorem request_sent_iff :
  forall (s : State) (sessionId : SessionId),
    (request_of (run (onSubmit s sessionId) s) <> None <->
     draft_constraints s /\ exists v, sessionId = Some v /\ v <> []) /\
    (request_of (run (onSubmit s sessionId) s) <> None ->
     request_of (run (onSubmit s sessionId) s)
     = Some (build_request s sessionId) /\
     isSubmitting (fst (run (onSubmit s sessionId) s)) = true /\
     error (fst (run (onSubmit s sessionId) s)) = None) /\
    (request_of (run (onSubmit s sessionId) s) = None ->
     isSubmitting (fst (run (onSubmit s sessionId) s)) = isSubmitting s /\
     error (fst (run (onSubmit s sessionId) s)) <> None).
Proof.
  intros s sessionId.
  rewrite <- validate_iff, <- js_not_false_iff.
  destruct (run_onSubmit_cases s sessionId)
    as [(Hv & ->) | [(Hv & Hs & ->) | (Hv & Hs & ->)]];
    cbn [request_of fst snd apply_setter isSubmitting error].
  - split; [|split].
    + split; [congruence | intros (H & _); congruence].
    + congruence.
    + intros _. split; [reflexivity | discriminate].
  - split; [|split].
    + split; [congruence | intros (_ & H); congruence].
    + congruence.
    + intros _. split; [reflexivity | discriminate].
  - split; [|split].
    + split; [auto | discriminate].
    + auto.
    + discriminate.
Qed.

Lemma request_sent_iff_witness :
  request_of (run (onSubmit example_state (Some (js "abc123"))) example_state)
  = Some (build_request example_state (Some (js "abc123"))) /\
  isSubmitting
    (fst (run (onSubmit example_state (Some (js "abc123"))) example_state))
  = true /\
  error
    (fst (run (onSubmit example_state (Some (js "abc123"))) example_state))
  = None.
Proof.
  apply (proj1 (proj2 (request_sent_iff example_state (Some (js "abc123"))))).
  discriminate.
Defined.

Lemma issue_type_member v :
  In v issue_type_values -> exists t : IssueType, v = issue_type_name t.
Proof.
  intros [H | [H | [H | [H | [H | []]]]]]; subst v;
    [exists work_injury | exists mva | exists sports
     | exists chronic_pain | exists other]; reflexivity.
Qed.

(** X7: every request that [onSubmit] sends is a POST to
    [/api/intake/save] whose [session_id] is the non-empty session
    identifier, whose [injury_type] is a member of the enumeration (the
    selected issue type) and whose [insurance_type] is the one that goes
    with that member. *)
Theorem sent_request_is_well_formed :
  forall (s : State) (sessionId : SessionId) (req : Request),
    request_of (run (onSubmit s sessionId) s) = Some req ->
    url req = js "/api/intake/save" /\ method req = js "POST" /\
    (exists v, v <> [] /\ sessionId = Some v /\
               Payload.session_id (body req) = Some v) /\
    (exists t : IssueType,
       issueType s = issue_type_name t /\
       Payload.injury_type (Payload.injury_data (body req))
       = issue_type_name t /\
       Payload.insurance_type (Payload.insurance_data (body req))
       = insurance_of t).
Proof.
  intros s sessionId req H.
  apply request_of_onSubmit in H as (Hv & Hs & ->).
  apply js_not_false_iff in Hs as (v & -> & Hne).
  apply validate_iff in Hv as (_ & _ & Hissue & _).
  apply issue_type_member in Hissue as (t & Ht).
  split; [reflexivity|]. split; [reflexivity|]. split.
  - exists v. auto.
  - exists t. cbn [body build_request build_body Payload.injury_data
                   Payload.injury_type Payload.insurance_data
                   Payload.insurance_type].
    rewrite Ht. split; [reflexivity|]. split; [reflexivity|].
    destruct t; reflexivity.
Qed.

Lemma sent_request_is_well_formed_witness :
  let req := build_request padded_phone_state (Some (js "abc123")) in
  url req = js "/api/intake/save" /\ method req = js "POST" /\
  (exists v, v <> [] /\ Some (js "abc123") = Some v /\
             Payload.session_id (body req) = Some v) /\
  (exists t : IssueType,
     issueType padded_phone_state = issue_type_name t /\
     Payload.injury_type (Payload.injury_data (body req))
     = issue_type_name t /\
     Payload.insurance_type (Payload.insurance_data (body req))
     = insurance_of t).
Proof.
  apply (@sent_request_is_well_formed padded_phone_state
           (Some (js "abc123"))
           (build_request padded_phone_state (Some (js "abc123")))).
  reflexivity.
Defined.

(** X8: the selected location is checked but never sent: choosing the
    other location leaves the request that [onSubmit] sends exactly as it
    was. *)
Theorem location_is_not_sent :
  forall (s : State) (sessionId : SessionId) (v : Location) (req : Request),
    request_of (run (onSubmit s sessionId) s) = Some req ->
    request_of
      (run (onSubmit (apply_setter (setLocation (location_name v)) s)
              sessionId)
         (apply_setter (setLocation (location_name v)) s))
    = Some req.
Proof.
  intros s sessionId v req H.
  apply request_of_onSubmit in H as (Hv & Hs & ->).
  assert (Hv' : validate (apply_setter (setLocation (location_name v)) s)
                = true).
  { apply validate_iff. apply validate_iff in Hv
      as (H1 & H2 & H3 & _ & H5 & H6).
    unfold draft_constraints.
    cbn [apply_setter fullName phone issueType location consentPrivacy
         consentCommunication].
    repeat (split; [assumption|]). split; [|split; assumption].
    destruct v; simpl; auto. }
  rewrite (run_onSubmit_fetch _ sessionId Hv' Hs). reflexivity.
Qed.

Lemma location_is_not_sent_witness :
  request_of
    (run (onSubmit
            (apply_setter (setLocation (location_name edmonton_west))
               example_state) (Some (js "abc123")))
       (apply_setter (setLocation (location_name edmonton_west))
          example_state))
  = Some (build_request example_state (Some (js "abc123"))).
Proof.
  apply (@location_is_not_sent example_state (Some (js "abc123"))
           edmonton_west
           (build_request example_state (Some (js "abc123")))).
  reflexivity.
Defined.

(** ** Pages reached from the initial one *)

Lemma click_sends pg sessionId :
  success (state pg) = false -> isSubmitting (state pg) = false ->
  validate (state pg) = true -> js_not sessionId = false ->
  step pg (ClickSubmit sessionId) = page_submitting pg sessionId.
Proof.
  intros Hsucc Hsub Hv Hs. cbn [step]. unfold render.
  rewrite Hsucc, Hsub. unfold start.
  rewrite (run_onSubmit_fetch (state pg) sessionId Hv Hs). reflexivity.
Qed.

Lemma settle_only_request pg req o :
  inflight pg = [(req, onSubmit_after_await)] ->
  step pg (FetchSettled 0 o) = page_settled pg o.
Proof.
  intros Hfl. cbn [step]. rewrite Hfl. cbn [nth_error]. unfold start.
  cbn [state]. rewrite run_after_await. reflexivity.
Qed.

Lemma on_form_reachable_inv pg c :
  field_setter c = true ->
  selects_inv (apply_setter c (state pg)) ->
  reachable_inv pg -> reachable_inv (on_form pg c).
Proof.
  intros Hc Hsel (Hp & Hs & Hb). split; [now apply on_form_inv|].
  unfold on_form. destruct (render (state pg)); [auto|].
  unfold start. cbn [run state]. split; [exact Hsel|].
  destruct (flow_cells_apply_setter c (state pg) Hc) as (Hi & Hsu & He).
  unfold banner_inv. rewrite Hi, Hsu, He. exact Hb.
Qed.

Lemma click_reachable_inv pg sessionId :
  reachable_inv pg -> reachable_inv (step pg (ClickSubmit sessionId)).
Proof.
  intros (Hp & Hs & Hb). split; [now apply click_inv|].
  destruct (success (state pg)) eqn:Hsucc.
  { rewrite click_inert by auto. auto. }
  destruct (isSubmitting (state pg)) eqn:Hsub.
  { rewrite click_inert by auto. auto. }
  cbn [step]. unfold render. rewrite Hsucc, Hsub. unfold start.
  destruct (run_onSubmit_cases (state pg) sessionId)
    as [(_ & ->) | [(_ & _ & ->) | (_ & _ & ->)]];
    cbn [state]; (split; [exact Hs|]); unfold banner_inv;
    cbn [apply_setter isSubmitting success error];
    rewrite ?Hsucc, ?Hsub; split; auto; discriminate.
Qed.

Lemma settle_reachable_inv pg i o :
  reachable_inv pg -> reachable_inv (step pg (FetchSettled i o)).
Proof.
  intros (Hp & Hs & Hb). split; [now apply settle_inv|].
  destruct Hp as (_ & [(Hfl & _) | (req & Hfl & Hsub & Hsucc)]).
  - cbn [step]. rewrite Hfl. destruct i; auto.
  - destruct i as [|i].
    + rewrite (settle_only_request pg o Hfl). unfold page_settled.
      cbn [state]. destruct Hb as (Hb1 & _). specialize (Hb1 Hsub).
      destruct (http_success o); (split; [exact Hs|]); unfold banner_inv;
        cbn [apply_setter isSubmitting success error];
        rewrite ?Hsucc; split; auto; discriminate.
    + cbn [step]. rewrite Hfl. destruct i; auto.
Qed.

Lemma step_reachable_inv pg ev :
  reachable_inv pg -> reachable_inv (step pg ev).
Proof.
  intros H. pose proof H as (_ & (Hi & Hl) & _).
  destruct ev; cbn [step];
    try (apply on_form_reachable_inv; [reflexivity | | exact H];
         split; cbn [apply_setter issueType location]; try assumption).
  - destruct v; simpl; auto 6.
  - destruct v; simpl; auto.
  - now apply click_reachable_inv.
  - now apply settle_reachable_inv.
Qed.

Lemma run_events_reachable_inv evs :
  reachable_inv (run_events initial_page evs).
Proof.
  assert (H0 : reachable_inv initial_page).
  { split; [apply initial_page_inv|]. split.
    - split; simpl; auto.
    - split; reflexivity. }
  revert H0. generalize initial_page.
  induction evs as [|ev evs IH]; intros pg H; [exact H|].
  apply IH, step_reachable_inv, H.
Qed.

(** X9: on every page reached from the initial state, the issue type and
    the location are members of their enumerations (the selects offer
    nothing else), so validation succeeds exactly when the trimmed name
    has at least 3 code units, the trimmed phone at least 10, and both
    boxes are checked. *)
Theorem reachable_selects_are_valid :
  forall (evs : list Event),
    let s := state (run_events initial_page evs) in
    In (issueType s) issue_type_values /\
    In (location s) location_values /\
    (validate s = true <->
     3 <= List.length (trim (fullName s)) /\
     10 <= List.length (trim (phone s)) /\
     consentPrivacy s = true /\ consentCommunication s = true).
Proof.
  intros evs s.
  destruct (run_events_reachable_inv evs) as (_ & (Hi & Hl) & _).
  fold s in Hi, Hl. split; [exact Hi|]. split; [exact Hl|].
  rewrite validate_iff. unfold draft_constraints. tauto.
Qed.

(** X10: on every page reached from the initial state no error was left
    uncaught; while [isSubmitting] is set the form is still shown and no
    error message is kept; and once [success] is set, [isSubmitting] is
    clear, no error message is kept and no request is out. *)
Theorem reachable_flags_are_consistent :
  forall (evs : list Event),
    let pg := run_events initial_page evs in
    unhandled pg = [] /\
    (isSubmitting (state pg) = true ->
     success (state pg) = false /\ error (state pg) = None) /\
    (success (state pg) = true ->
     isSubmitting (state pg) = false /\ error (state pg) = None /\
     inflight pg = []).
Proof.
  intros evs pg.
  destruct (run_events_reachable_inv evs) as ((Hun & Hp) & _ & (Hb1 & Hb2)).
  fold pg in Hun, Hp, Hb1, Hb2. split; [exact Hun|]. split.
  - intros H. split; [|auto].
    destruct Hp as [(_ & H') | (_ & _ & _ & H')]; congruence.
  - intros H. destruct Hp as [(Hfl & H') | (_ & _ & _ & H')];
      [auto | congruence].
Qed.

Lemma reachable_flags_are_consistent_witness :
  let pg := run_events initial_page
              [InputFullName (js "John Smith");
               InputPhone (js "7802508188");
               ClickSubmit (Some (js "abc123"));
               FetchSettled 0 (Fulfilled {| http_status := 201 |})] in
  isSubmitting (state pg) = false /\ error (state pg) = None /\
  inflight pg = [].
Proof.
  intros pg.
  apply (proj2 (proj2 (reachable_flags_are_consistent
           [InputFullName (js "John Smith");
            InputPhone (js "7802508188");
            ClickSubmit (Some (js "abc123"));
            FetchSettled 0 (Fulfilled {| http_status := 201 |})]))).
  reflexivity.
Defined.

Lemma step_sets_success pg ev :
  page_inv pg -> success (state pg) = false ->
  success (state (step pg ev)) = true ->
  isSubmitting (state pg) = true /\
  exists o, ev = FetchSettled 0 o /\ http_success o = true.
Proof.
  intros Hinv Hs H.
  assert (Hform : forall c, field_setter c = true ->
            success (state (on_form pg c)) = true -> False).
  { intros c Hc. unfold on_form. destruct (render (state pg)).
    - congruence.
    - unfold start. cbn [run state].
      destruct (flow_cells_apply_setter c (state pg) Hc) as (_ & -> & _).
      congruence. }
  destruct ev; cbn [step] in H;
    try (exfalso; revert H; apply Hform; reflexivity).
  - exfalso. revert H. unfold render. rewrite Hs.
    destruct (isSubmitting (state pg)); [congruence|]. unfold start.
    destruct (run_onSubmit_cases (state pg) sessionId)
      as [(_ & ->) | [(_ & _ & ->) | (_ & _ & ->)]];
      cbn [state apply_setter success]; congruence.
  - destruct Hinv as (_ & [(Hfl & _) | (req & Hfl & Hsub & _)]).
    + rewrite Hfl in H. destruct i; cbn [nth_error] in H; congruence.
    + split; [exact Hsub|]. rewrite Hfl in H.
      destruct i as [|i]; [|destruct i; cbn [nth_error] in H; congruence].
      exists o. split; [reflexivity|].
      cbn [nth_error] in H. unfold start in H. cbn [state] in H.
      rewrite run_after_await in H.
      destruct (http_success o); [reflexivity|].
      cbn [state apply_setter success] in H. congruence.
Qed.

(** X11: the page shows the confirmation only after a request has come
    back with an HTTP success status: if [success] is set after a
    sequence of events, the sequence holds the completion of a request,
    sent while [isSubmitting] was set, with a response whose status is in
    200-299. *)
Theorem success_only_after_http_success :
  forall (evs : list Event),
    success (state (run_events initial_page evs)) = true ->
    exists (before after : list Event) (o : FetchOutcome),
      evs = before ++ FetchSettled 0 o :: after /\
      http_success o = true /\
      isSubmitting (state (run_events initial_page before)) = true.
Proof.
  induction evs as [|ev evs IH] using rev_ind; [discriminate|].
  rewrite run_events_app. cbn [run_events fold_left].
  fold (run_events initial_page evs).
  destruct (success (state (run_events initial_page evs))) eqn:Hs.
  - intros _. destruct (IH eq_refl) as (before & after & o & -> & Ho & Hb).
    exists before, (after ++ [ev]), o. rewrite <- app_assoc. auto.
  - intros H.
    destruct (step_sets_success ev
                (run_events_inv evs initial_page_inv) Hs H)
      as (Hsub & o & -> & Ho).
    exists evs, [], o. auto.
Qed.

Lemma success_only_after_http_success_witness :
  exists (before after : list Event) (o : FetchOutcome),
    [InputFullName (js "John Smith"); InputPhone (js "7802508188");
     ClickSubmit (Some (js "abc123"));
     FetchSettled 0 (Fulfilled {| http_status := 204 |});
     ClickSubmit None]
    = before ++ FetchSettled 0 o :: after /\
    http_success o = true /\
    isSubmitting (state (run_events initial_page before)) = true.
Proof.
  apply (success_only_after_http_success
           [InputFullName (js "John Smith"); InputPhone (js "7802508188");
            ClickSubmit (Some (js "abc123"));
            FetchSettled 0 (Fulfilled {| http_status := 204 |});
            ClickSubmit None]).
  reflexivity.
Defined.

(** X12: a failed submission can be repeated as it is. From a reachable
    page that shows the idle form with a valid draft and a session, a
    click sends the request built from the draft; when that request fails
    (a status outside 200-299, or no response at all) the form comes back
    with the failure message, the draft untouched and nothing out; and a
    second click then sends the very same request again. *)
Theorem failed_submit_can_be_repeated :
  forall (evs : list Event) (sessionId : SessionId) (o : FetchOutcome),
    let pg := run_events initial_page evs in
    let pg1 := step pg (ClickSubmit sessionId) in
    let pg2 := step pg1 (FetchSettled 0 o) in
    let pg3 := step pg2 (ClickSubmit sessionId) in
    success (state pg) = false -> isSubmitting (state pg) = false ->
    validate (state pg) = true -> js_not sessionId = false ->
    http_success o = false ->
    map fst (inflight pg1) = [build_request (state pg) sessionId] /\
    view_state (state pg1) = Submitting /\
    view_state (state pg2) = EditingWithError /\
    error (state pg2) = Some msg_failed /\
    draft (state pg2) = draft (state pg) /\
    inflight pg2 = [] /\
    map fst (inflight pg3) = [build_request (state pg) sessionId] /\
    view_state (state pg3) = Submitting.
Proof.
  intros evs sessionId o pg pg1 pg2 pg3 Hsucc Hsub Hv Hs Ho.
  assert (Hfl : inflight pg = []).
  { destruct (run_events_inv evs initial_page_inv)
      as (_ & [(H & _) | (_ & _ & H & _)]); [exact H|].
    fold pg in H. congruence. }
  assert (E1 : pg1 = page_submitting pg sessionId)
    by (apply click_sends; assumption).
  assert (E2 : pg2 = page_settled pg1 o).
  { apply (@settle_only_request pg1 (build_request (state pg) sessionId)).
    rewrite E1. unfold page_submitting. cbn [inflight]. rewrite Hfl.
    reflexivity. }
  assert (E3 : pg3 = page_submitting pg2 sessionId).
  { apply click_sends; [| | |exact Hs]; rewrite E2, E1;
      unfold page_settled, page_submitting; rewrite Ho;
      cbn [state apply_setter success isSubmitting]; auto. }
  rewrite E3, E2, E1. unfold page_settled, page_submitting.
  rewrite Ho. cbn [state inflight]. rewrite Hfl.
  unfold view_state, render, draft.
  cbn [apply_setter success isSubmitting error fullName phone issueType
       location consentPrivacy consentCommunication app map fst].
  rewrite Hsucc. repeat split.
Qed.

Lemma failed_submit_can_be_repeated_witness :
  let pg := run_events initial_page
              [InputFullName (js "John Smith");
               InputPhone (js "7802508188")] in
  let o := Rejected (TypeError (js "Failed to fetch")) in
  let pg1 := step pg (ClickSubmit (Some (js "abc123"))) in
  let pg2 := step pg1 (FetchSettled 0 o) in
  let pg3 := step pg2 (ClickSubmit (Some (js "abc123"))) in
  map fst (inflight pg1) = [build_request (state pg) (Some (js "abc123"))] /\
  view_state (state pg1) = Submitting /\
  view_state (state pg2) = EditingWithError /\
  error (state pg2) = Some msg_failed /\
  draft (state pg2) = draft (state pg) /\
  inflight pg2 = [] /\
  map fst (inflight pg3) = [build_request (state pg) (Some (js "abc123"))] /\
  view_state (state pg3) = Submitting.
Proof.
  apply (@failed_submit_can_be_repeated
           [InputFullName (js "John Smith"); InputPhone (js "7802508188")]
           (Some (js "abc123"))
           (Rejected (TypeError (js "Failed to fetch"))));
    reflexivity.
Defined.

(** X13: the form is ready to send as soon as a name and a phone number
    are typed: from the initial page, with the preselected issue type and
    location and the two boxes checked as they start, typing a name of at
    least 3 and a phone of at least 10 code units after trimming and
    clicking submit with a session sends one request, for a work injury
    with insurance type "wcb"; when it comes back with a success status
    the page shows the confirmation, with no error and nothing out. *)
Theorem defaults_submit_successfully :
  forall (typedName typedPhone : JsString) (sessionId : SessionId) (o : FetchOutcome),
    3 <= List.length (trim typedName) ->
    10 <= List.length (trim typedPhone) ->
    js_not sessionId = false -> http_success o = true ->
    let pg1 := run_events initial_page
                 [InputFullName typedName; InputPhone typedPhone;
                  ClickSubmit sessionId] in
    let pg2 := step pg1 (FetchSettled 0 o) in
    (exists req,
       map fst (inflight pg1) = [req] /\
       Payload.injury_type (Payload.injury_data (body req))
       = js "work_injury" /\
       Payload.insurance_type (Payload.insurance_data (body req))
       = js "wcb" /\
       Payload.phone (Payload.patient_data (body req)) = typedPhone /\
       Payload.session_id (body req) = sessionId) /\
    view_state (state pg1) = Submitting /\
    view_state (state pg2) = Success /\
    error (state pg2) = None /\
    inflight pg2 = [] /\ unhandled pg2 = [].
Proof.
  intros typedName typedPhone sessionId o Hn Hp Hs Ho pg1 pg2.
  set (pg0 := {| state := draft_state typedName typedPhone (js "work_injury")
                            (js "edmonton-main-hub") true true;
                 inflight := []; unhandled := [] |}).
  assert (Hv : validate (state pg0) = true).
  { apply validate_iff. unfold draft_constraints, pg0.
    cbn [state draft_state fullName phone issueType location
         consentPrivacy consentCommunication].
    repeat (split; [assumption|]). split; [|split; [|split; reflexivity]].
    - simpl; auto.
    - simpl; auto. }
  assert (E1 : pg1 = page_submitting pg0 sessionId).
  { change pg1 with (step pg0 (ClickSubmit sessionId)).
    apply click_sends; [reflexivity | reflexivity | exact Hv | exact Hs]. }
  assert (E2 : pg2 = page_settled pg1 o).
  { apply (@settle_only_request pg1 (build_request (state pg0) sessionId)).
    rewrite E1. reflexivity. }
  rewrite E2, E1. unfold page_settled, page_submitting. rewrite Ho.
  split.
  - exists (build_request (state pg0) sessionId). repeat split.
  - repeat split.
Qed.

Lemma defaults_submit_successfully_witness :
  let pg1 := run_events initial_page
               [InputFullName (js " Madonna"); InputPhone (js "780-250-8188");
                ClickSubmit (Some (js "abc123"))] in
  let pg2 := step pg1 (FetchSettled 0 (Fulfilled {| http_status := 200 |})) in
  (exists req,
     map fst (inflight pg1) = [req] /\
     Payload.injury_type (Payload.injury_data (body req))
     = js "work_injury" /\
     Payload.insurance_type (Payload.insurance_data (body req))
     = js "wcb" /\
     Payload.phone (Payload.patient_data (body req)) = js "780-250-8188" /\
     Payload.session_id (body req) = Some (js "abc123")) /\
  view_state (state pg1) = Submitting /\
  view_state (state pg2) = Success /\
  error (state pg2) = None /\
  inflight pg2 = [] /\ unhandled pg2 = [].
Proof.
  apply (@defaults_submit_successfully (js " Madonna") (js "780-250-8188")
           (Some (js "abc123")) (Fulfilled {| http_status := 200 |}));
    vm_compute; try reflexivity; lia.
Defined.

(** ** [issueTypeToInsurance] outside the enumeration *)

(** X14: for every string, [issueTypeToInsurance] gives "wcb" only for
    "work_injury" and "mva" only for "mva"; every other string, a member
    of the enumeration or not, falls through to "private". *)
Theorem issueTypeToInsurance_falls_through :
  forall v : JsString,
    (issueTypeToInsurance v = js "wcb" <-> v = js "work_injury") /\
    (issueTypeToInsurance v = js "mva" <-> v = js "mva") /\
    (issueTypeToInsurance v = js "private" <->
     v <> js "work_injury" /\ v <> js "mva").
Proof.
  intros v. unfold issueTypeToInsurance.
  destruct (str_eqb v (js "work_injury")) eqn:E1.
  - apply str_eqb_eq in E1. subst v.
    repeat split; try reflexivity; try discriminate.
    intros (H & _). now contradiction H.
  - destruct (str_eqb v (js "mva")) eqn:E2.
    + apply str_eqb_eq in E2. subst v.
      repeat split; try reflexivity; try discriminate.
      intros (_ & H). now contradiction H.
    + assert (H1 : v <> js "work_injury").
      { intros ->. discriminate E1. }
      assert (H2 : v <> js "mva").
      { intros ->. discriminate E2. }
      repeat split; try discriminate; try assumption;
        intros; contradiction.
Qed.
